(** * The training-loop dispatcher of [research/utils/training_loop.py]

    A shallow embedding of [_write_metrics] and [run] and the properties of
    the loop: checkpoint resumption, retry on transient executor faults,
    checkpoint cadence, the metrics table and the count of unique clients.

    - Python values are a small universe [pyval]; a [dict] is an association
      list in insertion order; the set of client ids is a [gset string].
    - Effects are explicit: a state and exception monad over a [World] that
      holds the summary events, the two csv files, the saved checkpoints and
      the number of executor rebuilds. [logging] calls have no effect there.
    - The collaborators of the loop (the iterative process, the client
      sampler, the evaluation function, the clock) are parameters of a
      Section, indexed by the number of outside calls made so far, so that
      two calls with the same arguments may answer differently. Of these
      only [iterative_process.next] is given the choice to raise; the
      others return. [tf.compat.v2.summary.scalar] is a parameter too: it
      writes the event or raises, as it does on a value that is no number.
    - The [while] loop takes the number of passes it may make; a run that
      uses them up is reported as still running, with its locals.
    - The metrics table is the list of its rows, each row the flattened
      metrics it was written from; a cell a row does not have stands for the
      NaN that pandas puts there. *)

From Stdlib Require Import ZArith String List Lia Bool.
From Stdlib Require QArith.
From stdpp Require Import base gmap sets list strings.

Set Warnings "-notation-for-abbreviation,-register-all".

Open Scope string_scope.
Open Scope list_scope.
Open Scope Z_scope.

Notation Q := QArith_base.Q.

(** ** Python values *)

(** The values that reach the metrics writer: [None], integers, floats
    (kept as the rational they denote: no property below depends on float
    arithmetic), strings and (possibly nested) dictionaries with string
    keys. *)
Inductive pyval : Type :=
| VNone
| VInt (z : Z)
| VFloat (q : Q)
| VStr (s : string)
| VDict (d : list (string * pyval)).

(** A [dict] in insertion order; the keys of a dictionary are pairwise
    distinct, and every operation below keeps them so. *)
Notation dict := (list (string * pyval)).

(** [isinstance(v, dict)] *)
Definition isinstance_dict (v : pyval) : bool :=
  match v with VDict _ => true | _ => false end.

(** [isinstance(v, int)] *)
Definition isinstance_int (v : pyval) : bool :=
  match v with VInt _ => true | _ => false end.

Module Dict.

(** [d.get(k)]: the value of the first entry under [k]. *)
Fixpoint get {A} (k : string) (d : list (string * A)) : option A :=
  match d with
  | [] => None
  | (k', v) :: rest => if String.eqb k k' then Some v else get k rest
  end.

(** [k in d] *)
Definition mem {A} (k : string) (d : list (string * A)) : bool :=
  match get k d with Some _ => true | None => false end.

(** [d[k] = v]: an existing key keeps its position, a new key goes last. *)
Fixpoint set {A} (k : string) (v : A) (d : list (string * A))
  : list (string * A) :=
  match d with
  | [] => [(k, v)]
  | (k', v') :: rest =>
      if String.eqb k k' then (k', v) :: rest else (k', v') :: set k v rest
  end.

(** [del d[k]] *)
Definition remove {A} (k : string) (d : list (string * A))
  : list (string * A) :=
  List.filter (fun kv => negb (String.eqb k (fst kv))) d.

(** [d.update(other)] *)
Definition update {A} (d other : list (string * A)) : list (string * A) :=
  fold_left (fun acc kv => set (fst kv) (snd kv) acc) other d.

(** [collections.OrderedDict(pairs)] *)
Definition of_pairs {A} (pairs : list (string * A)) : list (string * A) :=
  update [] pairs.

Definition keys {A} (d : list (string * A)) : list string := map fst d.

End Dict.

(** ** [tree.flatten_with_path] *)

(** Insertion of a group under its key, keys ascending ([sorted(d)]). *)
Fixpoint insert_by_key {A} (k : string) (x : A) (l : list (string * A))
  : list (string * A) :=
  match l with
  | [] => [(k, x)]
  | (k', x') :: rest =>
      if String.leb k k' then (k, x) :: l else (k', x') :: insert_by_key k x rest
  end.

Definition sort_by_key {A} (l : list (string * A)) : list (string * A) :=
  fold_right (fun kx acc => insert_by_key (fst kx) (snd kx) acc) [] l.

Definition prefix_paths (k : string) (sub : list (list string * pyval))
  : list (list string * pyval) :=
  map (fun pl => (k :: fst pl, snd pl)) sub.

(** [tree.flatten_with_path(v)]: the leaves of [v] with the keys that lead
    to them; a dictionary is walked in ascending key order, an empty
    dictionary has no leaves, anything else is a leaf. *)
Fixpoint flatten_with_path (v : pyval) : list (list string * pyval) :=
  match v with
  | VDict d =>
      let groups :=
        (fix each (items : list (string * pyval)) :=
           match items with
           | [] => []
           | (k, x) :: rest => (k, flatten_with_path x) :: each rest
           end) d in
      concat (map (fun g => prefix_paths (fst g) (snd g)) (sort_by_key groups))
  | leaf => [([], leaf)]
  end.

(** ['/'.join(map(str, path))] *)
Definition join_path (path : list string) : string := String.concat "/" path.

(** The [flat_metrics] of [_write_metrics]: an [OrderedDict] from joined
    path to leaf. *)
Definition flatten_metrics (train_metrics eval_metrics round_num : pyval)
  : dict :=
  let metrics := VDict [("train", train_metrics);
                        ("eval", eval_metrics);
                        ("round", round_num)] in
  let flat_metrics := flatten_with_path metrics in
  let flat_metrics := map (fun pi => (join_path (fst pi), snd pi)) flat_metrics in
  Dict.of_pairs flat_metrics.

(** The round number a row of the metrics table holds, if any. *)
Definition round_of (row : dict) : option Z :=
  match Dict.get "round" row with
  | Some (VInt r) => Some r
  | _ => None
  end.

(** The round numbers [0, 1, ..., n-1], the column of a table with one row
    per round. *)
Definition rounds_upto (n : nat) : list (option Z) :=
  map (fun i => Some (Z.of_nat i)) (seq 0 n).

(** A table with one row per round, in order: row [i] holds round [i]. *)
Definition dense_table (rows : list dict) : Prop :=
  map round_of rows = rounds_upto (length rows).

(** A value [tree] does not descend into. *)
Definition is_leaf (v : pyval) : bool := negb (isinstance_dict v).

(** An [int] or a [float]. *)
Definition is_number (v : pyval) : bool :=
  match v with VInt _ | VFloat _ => true | _ => false end.

(** [s.startswith(p)] *)
Fixpoint starts_with (p s : string) : bool :=
  match p, s with
  | EmptyString, _ => true
  | String a p', String b s' => Ascii.eqb a b && starts_with p' s'
  | String _ _, EmptyString => false
  end.

(** The column names of a flattened row that the loop may write. *)
Definition metrics_column (name : string) : Prop :=
  name = "round" \/
  starts_with "eval/" name = true \/
  starts_with "train/" name = true.


(** ** Exceptions *)

(** The [tf.errors] raised by the execution backend. *)
Inductive tf_error : Type :=
| FailedPreconditionError
| NotFoundError
| InternalError
| OtherOpError (name : string).

Inductive exn : Type :=
| TypeError (msg : string)
| ValueError (msg : string)
| KeyError (key : string)
| ZeroDivisionError
| OpError (e : tf_error) (msg : string).

(** The [except (tf.errors.FailedPreconditionError, tf.errors.NotFoundError,
    tf.errors.InternalError)] clause of [run]. *)
Definition caught_by_retry (e : exn) : bool :=
  match e with
  | OpError FailedPreconditionError _
  | OpError NotFoundError _
  | OpError InternalError _ => true
  | _ => false
  end.

(** Python's [a % b] on integers: the sign follows the divisor, a zero
    divisor raises. *)
Definition py_mod (a b : Z) : exn + Z :=
  if b =? 0 then inl ZeroDivisionError else inr (a mod b).

(** Python's [l[:n]]: a negative [n] counts from the end. *)
Definition py_slice_to {A} (n : Z) (l : list A) : list A :=
  if n <? 0 then firstn (Z.to_nat (Z.of_nat (length l) + n)) l
  else firstn (Z.to_nat n) l.

(** ** A small process to run the loop on *)

Module Toy.

(** The state counts the rounds trained; the model is the state. *)
Definition initialize (i : nat) : Z := 0.


Definition model (s : Z) : Z := s.

Definition round_metrics : dict :=
  [("loss", VFloat (QArith_base.Qmake 1 2));
   ("keras_training_time_client_sum_sec", VFloat (QArith_base.inject_Z 3))].

(** A process that always trains. *)
Definition next (i : nat) (s : Z) (data : list unit) : exn + (Z * dict) :=
  inr (s + 1, round_metrics).

(** A process whose executor is down for good. *)
Definition next_down (i : nat) (s : Z) (data : list unit) : exn + (Z * dict) :=
  inl (OpError InternalError "executor down").

(** A process whose executor is down during the first ten outside calls:
    the first pass of a fresh run fails, the second gets through. *)
Definition next_flaky (i : nat) (s : Z) (data : list unit) : exn + (Z * dict) :=
  if (i <? 10)%nat then next_down i s data else next i s data.

(** A process whose executor answers with a fault the loop does not catch. *)
Definition next_unavailable (i : nat) (s : Z) (data : list unit) : exn + (Z * dict) :=
  inl (OpError (OtherOpError "UnavailableError") "backend unavailable").


(** A process that reports a [num_unique_clients] of its own. *)
Definition next_with_count (i : nat) (s : Z) (data : list unit)
  : exn + (Z * dict) :=
  inr (s + 1, ("num_unique_clients", VInt 99) :: round_metrics).

(** A process that reports a [save_checkpoint_secs] of its own. *)
Definition next_with_save_secs (i : nat) (s : Z) (data : list unit)
  : exn + (Z * dict) :=
  inr (s + 1,
       ("save_checkpoint_secs", VFloat (QArith_base.inject_Z 99)) :: round_metrics).


(** Clients [{a,b}], [{b,c}], [{a,d}] for rounds 0, 1 and 2 onwards. *)
Definition client_datasets_fn (i : nat) (round_num : Z) : list unit * list string :=
  ([tt; tt],
   if round_num =? 0 then ["a"; "b"]
   else if round_num =? 1 then ["b"; "c"]
   else ["a"; "d"]).

(** The same, except that a sample drawn during the first five outside
    calls is [{z}]: in a fresh run, the sample of the first pass. *)
Definition client_datasets_fn_flaky (i : nat) (round_num : Z)
  : list unit * list string :=
  if (i <? 5)%nat then ([tt], ["z"]) else client_datasets_fn i round_num.

Definition evaluate_fn (i : nat) (s : Z) (use_test_dataset : bool) : dict :=
  [("accuracy", VFloat (QArith_base.Qmake 3 4))].


(** A summary writer that takes numbers at steps that fit in 64 bits and
    raises on anything else. *)
Definition summary_scalar (name : string) (val : pyval) (step : Z) : option exn :=
  if is_number val then
    if (- 2 ^ 63 <=? step) && (step <? 2 ^ 63) then None
    else Some (ValueError "step does not fit in int64")
  else Some (ValueError "value is not a number").

Definition time_time (i : nat) : Q := QArith_base.inject_Z (Z.of_nat i).

Definition l2_difference (a b : Z) : Q := QArith_base.inject_Z (Z.abs (a - b)).

(** A metrics table with rows for the given rounds. *)
Definition table (rounds : list Z) : list dict :=
  map (fun r => flatten_metrics (VDict []) (VDict []) (VInt r)) rounds.

End Toy.

(** ** The loop and its surroundings *)

Section TrainingLoop.

(** A proof depends on the parameters its statement names, and on no
    others. *)
Set Default Proof Using "Type".

(** The server state of the iterative process, its model and the client
    datasets are opaque to the loop. *)
Variables (State Model Dataset : Type).

(** [FLAGS.total_rounds], [FLAGS.rounds_per_eval],
    [FLAGS.rounds_per_checkpoint]. *)
Variables (total_rounds rounds_per_eval rounds_per_checkpoint : Z).

(** The hyperparameter flags with their values, and
    [os.path.join(results_dir, 'metrics.csv')]. *)
Variable hparam_flags : dict.
Variable metrics_file : string.

(** The collaborators. The first argument is the number of outside calls
    made before this one: a second call with the same arguments may answer
    differently (another sample of clients, a fault that has gone). *)
Variable initialize : nat -> State.
Variable model : State -> Model.
Variable next : nat -> State -> list Dataset -> exn + (State * dict).
Variable client_datasets_fn : nat -> Z -> list Dataset * list string.
Variable evaluate_fn : nat -> State -> bool -> dict.
Variable time_time : nat -> Q.

(** [_compute_numpy_l2_difference] is tensor arithmetic on floats; the
    loop only stores its result. *)
Variable _compute_numpy_l2_difference : Model -> Model -> Q.

(** [tf.compat.v2.summary.scalar(name, val, step)] under the summary writer
    of the run: [None] when the event is written, the exception when the
    call raises, as TensorFlow does on a value it cannot take for a number
    or on a step that does not fit. *)
Variable summary_scalar : string -> pyval -> Z -> option exn.

(** What the loop did with its collaborators, for the statements below;
    no code reads it. *)
Inductive event : Type :=
| Attempt (round_num : Z) (sampled_clients : list string) (ok : bool)
| Trained (round_num : Z) (train_metrics : dict)
| Evaluated (s : State) (use_test_dataset : bool)
| Wrote (train_metrics eval_metrics : pyval) (round_num : Z).

(** Everything outside the local variables of [run]. *)
Record World : Type := mkWorld {
  calls : nat;                          (* outside calls made so far *)
  summary : list (string * pyval * Z);  (* scalar events, oldest first *)
  metrics_csv : option (list dict);     (* the rows of metrics.csv *)
  hparams_csv : option dict;
  checkpoints : list (Z * State);       (* saved, most recent first *)
  executor_builds : nat;                (* set_default_executor() calls *)
  history : list event                  (* most recent first *)
}.

(** *** A state and exception monad over the world *)

Inductive outcome (A : Type) : Type :=
| Ok (a : A) (w : World)
| Raise (e : exn) (w : World).
Arguments Ok {A} a w.
Arguments Raise {A} e w.

Definition M (A : Type) : Type := World -> outcome A.

Definition ret {A} (a : A) : M A := fun w => Ok a w.

Definition raise {A} (e : exn) : M A := fun w => Raise e w.

Definition bind {A B} (m : M A) (k : A -> M B) : M B :=
  fun w => match m w with
           | Ok a w' => k a w'
           | Raise e w' => Raise e w'
           end.

Declare Scope run_scope.
Delimit Scope run_scope with run.
Notation "x <- c1 ;; c2" := (bind c1 (fun x => c2))
  (at level 100, c1 at next level, c2 at level 200, right associativity)
  : run_scope.
Notation "c1 ;; c2" := (bind c1 (fun _ => c2))
  (at level 100, c2 at level 200, right associativity) : run_scope.
Open Scope run_scope.

Definition lift {A} (r : exn + A) : M A :=
  match r with inl e => raise e | inr a => ret a end.

(** *** The outside world *)

Definition tick (w : World) : World :=
  mkWorld (S (calls w)) (summary w) (metrics_csv w) (hparams_csv w)
          (checkpoints w) (executor_builds w) (history w).

Definition note (ev : event) : M unit := fun w =>
  Ok tt (mkWorld (calls w) (summary w) (metrics_csv w) (hparams_csv w)
                 (checkpoints w) (executor_builds w) (ev :: history w)).

(** [time.time()] *)
Definition time : M Q := fun w => Ok (time_time (calls w)) (tick w).

Definition call_initialize : M State := fun w =>
  Ok (initialize (calls w)) (tick w).

Definition call_client_datasets_fn (round_num : Z)
  : M (list Dataset * list string) := fun w =>
  Ok (client_datasets_fn (calls w) round_num) (tick w).

(** [iterative_process.next(state, data)], with what it raised if it did. *)
Definition call_next (s : State) (data : list Dataset)
  : M (exn + (State * dict)) := fun w =>
  Ok (next (calls w) s data) (tick w).

Definition call_evaluate_fn (s : State) (use_test_dataset : bool) : M dict :=
  r <- (fun w => Ok (evaluate_fn (calls w) s use_test_dataset) (tick w)) ;;
  note (Evaluated s use_test_dataset) ;;
  ret r.

(** [tff.framework.set_default_executor()] *)
Definition set_default_executor : M unit := fun w =>
  Ok tt (mkWorld (calls w) (summary w) (metrics_csv w) (hparams_csv w)
                 (checkpoints w) (S (executor_builds w)) (history w)).

(** One call [tf.compat.v2.summary.scalar(name, val, step=step)]: the
    event joins the summary, or the call raises and nothing is written. *)
Definition scalar (name : string) (val : pyval) (step : Z) : M unit := fun w =>
  match summary_scalar name val step with
  | Some e => Raise e w
  | None =>
      Ok tt (mkWorld (calls w) (summary w ++ [(name, val, step)])
                     (metrics_csv w) (hparams_csv w)
                     (checkpoints w) (executor_builds w) (history w))
  end.

(** [for name, val in flat_metrics.items():
       tf.compat.v2.summary.scalar(name, val, step=round_num)]:
    the events of the items before one that raises stay written. *)
Fixpoint write_summary (flat_metrics : dict) (step : Z) : M unit :=
  match flat_metrics with
  | [] => ret tt
  | (name, val) :: rest => scalar name val step ;; write_summary rest step
  end.

(** Every item of [flat_metrics] is one that the summary writer takes at
    [step]. *)
Definition summary_accepts (flat_metrics : dict) (step : Z) : Prop :=
  Forall (fun nv => summary_scalar (fst nv) (snd nv) step = None) flat_metrics.

(** The file behind [metrics_file]: [tf.io.gfile.exists] and
    [pd.read_csv] in one. *)
Definition read_metrics_csv : M (option (list dict)) := fun w =>
  Ok (metrics_csv w) w.

(** [utils_impl.atomic_write_to_csv(metrics, metrics_file)]: the file is
    replaced whole. *)
Definition atomic_write_metrics (rows : list dict) : M unit := fun w =>
  Ok tt (mkWorld (calls w) (summary w) (Some rows) (hparams_csv w)
                 (checkpoints w) (executor_builds w) (history w)).

Definition atomic_write_hparams (row : dict) : M unit := fun w =>
  Ok tt (mkWorld (calls w) (summary w) (metrics_csv w) (Some row)
                 (checkpoints w) (executor_builds w) (history w)).

(** *** The checkpoint manager *)

(** Modelled from the spec: [checkpoint_manager.FileCheckpointManager] is
    not among the sources. The checkpoint with the highest round number,
    the most recently saved one among equals. *)
Fixpoint latest_checkpoint (store : list (Z * State)) : option (Z * State) :=
  match store with
  | [] => None
  | (r, s) :: older =>
      match latest_checkpoint older with
      | Some (r', s') => if r' <=? r then Some (r, s) else Some (r', s')
      | None => Some (r, s)
      end
  end.

(** Modelled from the spec: [load_latest_checkpoint] of the missing
    checkpoint manager; [None] stands for its answer [(None, None)] on an
    empty store. *)
Definition load_latest_checkpoint (initial_state : State)
  : M (option (State * Z)) := fun w =>
  Ok (match latest_checkpoint (checkpoints w) with
      | Some (r, s) => Some (s, r)
      | None => None
      end) w.

(** Modelled from the spec: [save_checkpoint] of the missing checkpoint
    manager; the checkpoint is persisted under its round number. *)
Definition save_checkpoint (s : State) (round_num : Z) : M unit := fun w =>
  Ok tt (mkWorld (calls w) (summary w) (metrics_csv w) (hparams_csv w)
                 ((round_num, s) :: checkpoints w)
                 (executor_builds w) (history w)).

(** *** [_setup_metrics] and [_write_metrics] *)

Definition _setup_metrics (hparam_dict : option dict) : M unit :=
  match hparam_dict with
  | Some hparam_dict =>
      let hparam_dict := Dict.set "metrics_file" (VStr metrics_file) hparam_dict in
      atomic_write_hparams hparam_dict
  | None => ret tt
  end.

Definition _write_metrics (train_metrics eval_metrics round_num : pyval)
  : M unit :=
  if negb (isinstance_dict train_metrics) then
    raise (TypeError "train_metrics should be type `dict`.")
  else if negb (isinstance_dict eval_metrics) then
    raise (TypeError "eval_metrics should be type `dict`.")
  else
    match round_num with
    | VInt r =>
        let flat_metrics := flatten_metrics train_metrics eval_metrics round_num in
        write_summary flat_metrics r ;;
        existing <- read_metrics_csv ;;
        let metrics :=
          match existing with
          | Some metrics => py_slice_to r metrics ++ [flat_metrics]
          | None => [flat_metrics]
          end in
        atomic_write_metrics metrics ;;
        note (Wrote train_metrics eval_metrics r)
    | _ => raise (TypeError "round_num should be type `int`.")
    end.

(** *** [run] *)

(** The local variables of [run] that live across iterations. *)
Record locals : Type := mkLocals {
  state : State;
  round_num : Z;
  unique_clients : gset string
}.

(** [d.pop(k)] with no default: the dictionary that is left, or a
    [KeyError] when [k] is not in [d]. *)
Definition pop (k : string) (d : dict) : M dict :=
  if Dict.mem k d then ret (Dict.remove k d) else raise (KeyError k).

Definition secs (finish start : Q) : pyval :=
  VFloat (QArith_base.Qminus finish start).

(** One pass through the body of [while round_num < total_rounds]; the
    [continue] of the handler returns the locals as they were. *)
Definition loop_body (l : locals) : M locals :=
  data_prep_start_time <- time ;;
  sampled <- call_client_datasets_fn (round_num l) ;;
  let federated_train_data := fst sampled in
  let sampled_clients := snd sampled in
  now <- time ;;
  let train_metrics := [("prepare_datasets_secs", secs now data_prep_start_time)] in
  training_start_time <- time ;;
  let prev_model := model (state l) in
  attempt <- call_next (state l) federated_train_data ;;
  match attempt with
  | inl e =>
      if caught_by_retry e then
        note (Attempt (round_num l) sampled_clients false) ;;
        set_default_executor ;;
        ret l
      else raise e
  | inr iteration_result =>
      note (Attempt (round_num l) sampled_clients true) ;;
      let state := fst iteration_result in
      let round_metrics := snd iteration_result in
      now <- time ;;
      let train_metrics :=
        Dict.set "training_secs" (secs now training_start_time) train_metrics in
      let train_metrics :=
        Dict.set "model_delta_l2_norm"
                 (VFloat (_compute_numpy_l2_difference (model state) prev_model))
                 train_metrics in
      let unique_clients := unique_clients l ∪ list_to_set sampled_clients in
      let train_metrics :=
        Dict.set "num_unique_clients" (VInt (Z.of_nat (size unique_clients)))
                 train_metrics in
      let train_metrics := Dict.update train_metrics round_metrics in
      train_metrics <- pop "keras_training_time_client_sum_sec" train_metrics ;;
      (* the average in the log line divides by [round_num + 1] *)
      time ;;
      (if round_num l + 1 =? 0 then raise ZeroDivisionError else ret tt) ;;
      m <- lift (py_mod (round_num l) rounds_per_checkpoint) ;;
      train_metrics <-
        (if (m =? 0) || (round_num l =? total_rounds - 1) then
           save_checkpoint_start_time <- time ;;
           save_checkpoint state (round_num l) ;;
           now <- time ;;
           ret (Dict.set "save_checkpoint_secs"
                         (secs now save_checkpoint_start_time) train_metrics)
         else ret train_metrics) ;;
      m <- lift (py_mod (round_num l) rounds_per_eval) ;;
      (if m =? 0 then
         evaluate_start_time <- time ;;
         eval_metrics <- call_evaluate_fn state false ;;
         now <- time ;;
         let eval_metrics :=
           Dict.set "evaluate_secs" (secs now evaluate_start_time) eval_metrics in
         _write_metrics (VDict train_metrics) (VDict eval_metrics)
                        (VInt (round_num l))
       else ret tt) ;;
      note (Trained (round_num l) train_metrics) ;;
      ret (mkLocals state (round_num l + 1) unique_clients)
  end.

(** The clients sampled and the answer of [iterative_process.next] in the
    pass that starts from [l] and [w]: the sampler is the second outside
    call of the pass, [next] the fifth. *)
Definition sampled_at (l : locals) (w : World) : list Dataset * list string :=
  client_datasets_fn (S (calls w)) (round_num l).

Definition attempt_at (l : locals) (w : World) : exn + (State * dict) :=
  next (S (S (S (S (calls w))))) (state l) (fst (sampled_at l w)).

(** [round_num % FLAGS.rounds_per_checkpoint == 0 or
    round_num == total_rounds - 1] *)
Definition checkpoint_due (round_num : Z) : bool :=
  (round_num mod rounds_per_checkpoint =? 0) || (round_num =? total_rounds - 1).

(** The events a pass that got through adds: the attempt, the evaluation
    and the metrics row if one was due, the train metrics. *)
Definition pass_events (l : locals) (w : World) (train_metrics eval_metrics : dict)
           (new_state : State) : list event :=
  Trained (round_num l) train_metrics ::
  (if round_num l mod rounds_per_eval =? 0
   then [Wrote (VDict train_metrics) (VDict eval_metrics) (round_num l);
         Evaluated new_state false]
   else []) ++
  [Attempt (round_num l) (snd (sampled_at l w)) true].

(** How a run of the loop ends: it returns, an exception escapes, or the
    given number of iterations is used up with the loop still going. *)
Inductive ending (A : Type) : Type :=
| Returned (a : A) (w : World)
| Raised (e : exn) (w : World)
| Running (l : locals) (w : World).
Arguments Returned {A} a w.
Arguments Raised {A} e w.
Arguments Running {A} l w.

(** [while round_num < total_rounds: ...], at most [fuel] iterations. *)
Fixpoint while_loop (fuel : nat) (l : locals) (w : World) : ending locals :=
  if round_num l <? total_rounds then
    match fuel with
    | O => Running l w
    | S fuel' =>
        match loop_body l w with
        | Ok l' w' => while_loop fuel' l' w'
        | Raise e w' => Raised e w'
        end
    end
  else Returned l w.

(** The world in which a run stopped. *)
Definition final_world {A} (e : ending A) : World :=
  match e with
  | Returned _ w | Raised _ w | Running _ w => w
  end.

(** The rounds of the attempts in a history, and the clients of its
    successful attempts. *)
Fixpoint attempt_rounds (h : list event) : list Z :=
  match h with
  | [] => []
  | Attempt r _ _ :: earlier => r :: attempt_rounds earlier
  | _ :: earlier => attempt_rounds earlier
  end.

Fixpoint clients_of (h : list event) : gset string :=
  match h with
  | [] => ∅
  | Attempt _ sampled_clients true :: earlier =>
      clients_of earlier ∪ list_to_set sampled_clients
  | _ :: earlier => clients_of earlier
  end.

(** Every round that got through recorded, as [num_unique_clients], the
    number of clients of the successful attempts up to it. *)
Fixpoint counts_agree (h : list event) : Prop :=
  match h with
  | [] => True
  | Trained _ train_metrics :: earlier =>
      Dict.get "num_unique_clients" train_metrics =
        Some (VInt (Z.of_nat (size (clients_of earlier)))) /\
      counts_agree earlier
  | _ :: earlier => counts_agree earlier
  end.

(** The [num_unique_clients] recorded for the rounds that got through,
    most recent first. *)
Fixpoint recorded_counts (h : list event) : list (Z * option pyval) :=
  match h with
  | [] => []
  | Trained r train_metrics :: earlier =>
      (r, Dict.get "num_unique_clients" train_metrics) :: recorded_counts earlier
  | _ :: earlier => recorded_counts earlier
  end.

(** What the loop may record before it ends: rows for rounds below
    [total_rounds], evaluations on the validation data. *)
Definition in_loop_event (ev : event) : Prop :=
  match ev with
  | Wrote _ _ r => r < total_rounds
  | Evaluated _ use_test_dataset => use_test_dataset = false
  | _ => True
  end.

(** The rounds [a, a+1, ..., b-1]. *)
Definition rounds_between (a b : Z) : list Z :=
  map (fun i => a + Z.of_nat i) (seq 0 (Z.to_nat (b - a))).

(** The round [run] starts from, given the checkpoints it finds. *)
Definition resume_round (store : list (Z * State)) : Z :=
  match latest_checkpoint store with
  | Some (r, _) => r + 1
  | None => 0
  end.

(** The rounds of the attempts that succeeded, most recent first. *)
Fixpoint successful_rounds (h : list event) : list Z :=
  match h with
  | [] => []
  | Attempt r _ true :: earlier => r :: successful_rounds earlier
  | _ :: earlier => successful_rounds earlier
  end.

(** The number of attempts that ended in a caught fault. *)
Fixpoint failed_attempts (h : list event) : nat :=
  match h with
  | [] => O
  | Attempt _ _ false :: earlier => S (failed_attempts earlier)
  | _ :: earlier => failed_attempts earlier
  end.

(** The rounds of the metrics records written, most recent first. *)
Fixpoint wrote_rounds (h : list event) : list Z :=
  match h with
  | [] => []
  | Wrote _ _ r :: earlier => r :: wrote_rounds earlier
  | _ :: earlier => wrote_rounds earlier
  end.

(** [round_num % FLAGS.rounds_per_eval == 0] *)
Definition eval_due (round_num : Z) : bool :=
  round_num mod rounds_per_eval =? 0.

(** The train metrics the loop computes itself in a pass, before the
    metrics of the process are merged in. *)
Definition own_metrics (prepare_secs training_secs delta : pyval) (clients : gset string)
  : dict :=
  [("prepare_datasets_secs", prepare_secs);
   ("training_secs", training_secs);
   ("model_delta_l2_norm", delta);
   ("num_unique_clients", VInt (Z.of_nat (size clients)))].

(** The step a scalar event of the summary may carry in a run that started
    at round [start]: a round of the loop, or [total_rounds]. *)
Definition summary_step (start : Z) (ev : string * pyval * Z) : Prop :=
  (start <= snd ev < total_rounds) \/ snd ev = total_rounds.

(** [run] up to the loop: the initial state, the latest checkpoint, the
    metrics files. *)
Definition startup : M locals :=
  initial_state <- call_initialize ;;
  let hparam_dict := hparam_flags in
  loaded <- load_latest_checkpoint initial_state ;;
  let resumed :=
    match loaded with
    | None => (initial_state, 0)
    | Some (state, round_num) => (state, round_num + 1)
    end in
  _setup_metrics (Some hparam_dict) ;;
  let unique_clients : gset string := ∅ in
  (* loop_start_time *)
  time ;;
  ret (mkLocals (fst resumed) (snd resumed) unique_clients).

(** [run] after the loop: the evaluation on the test dataset. *)
Definition wrapup (state : State) : M State :=
  test_start_time <- time ;;
  test_metrics <- call_evaluate_fn state true ;;
  now <- time ;;
  let test_metrics :=
    Dict.set "evaluate_secs" (secs now test_start_time) test_metrics in
  _write_metrics (VDict []) (VDict test_metrics) (VInt total_rounds) ;;
  ret state.

(** [run(iterative_process, client_datasets_fn, evaluate_fn)]; the checks
    of its arguments are the types of the collaborators. *)
Definition run (fuel : nat) (w : World) : ending State :=
  match startup w with
  | Raise e w1 => Raised e w1
  | Ok l w1 =>
      match while_loop fuel l w1 with
      | Returned l' w2 =>
          match wrapup (state l') w2 with
          | Ok s w3 => Returned s w3
          | Raise e w3 => Raised e w3
          end
      | Raised e w2 => Raised e w2
      | Running l' w2 => Running l' w2
      end
  end.

(** The test metrics [run] ends with when its evaluation on the test
    dataset starts after [n] outside calls, and the row they are written
    as. *)
Definition test_metrics_at (n : nat) (s : State) : dict :=
  Dict.set "evaluate_secs" (secs (time_time (2 + n)%nat) (time_time n))
           (evaluate_fn (1 + n)%nat s true).

Definition final_row_at (n : nat) (s : State) : dict :=
  flatten_metrics (VDict []) (VDict (test_metrics_at n s)) (VInt total_rounds).

(** ** Dictionaries and flattened metrics *)

Lemma get_set {A} (k k' : string) (v : A) d :
  Dict.get k (Dict.set k' v d) = if String.eqb k k' then Some v else Dict.get k d.
Proof.
  induction d as [|[k0 v0] d IH]; simpl.
  - reflexivity.
  - destruct (String.eqb k' k0) eqn:E0; simpl.
    + apply String.eqb_eq in E0; subst k0.
      destruct (String.eqb k k'); reflexivity.
    + destruct (String.eqb k k0) eqn:E1.
      * apply String.eqb_eq in E1; subst k0.
        rewrite String.eqb_sym, E0. reflexivity.
      * apply IH.
Qed.

Lemma get_update {A} (k : string) (other d : list (string * A)) :
  Dict.get k (Dict.update d other) =
  match Dict.get k (rev other) with
  | Some v => Some v
  | None => Dict.get k d
  end.
Proof.
  revert d. induction other as [|[k0 v0] other IH] using rev_ind; intros d.
  - reflexivity.
  - unfold Dict.update in *. rewrite fold_left_app, rev_app_distr. simpl.
    rewrite get_set. destruct (String.eqb k k0); [reflexivity | apply IH].
Qed.

Lemma get_app_skip {A} (k : string) (l1 l2 : list (string * A)) :
  Forall (fun kv => fst kv <> k) l1 ->
  Dict.get k (l1 ++ l2) = Dict.get k l2.
Proof.
  induction 1 as [|[k0 v0] l1 Hk _ IH]; simpl; [reflexivity|].
  destruct (String.eqb k k0) eqn:E; [|exact IH].
  apply String.eqb_eq in E. simpl in Hk. congruence.
Qed.

Lemma get_remove_same {A} (k : string) (d : list (string * A)) :
  Dict.get k (Dict.remove k d) = None.
Proof.
  induction d as [|[k0 v0] d IH]; simpl; [reflexivity|].
  destruct (String.eqb k k0) eqn:E; simpl; [exact IH|].
  rewrite E. exact IH.
Qed.

Lemma get_remove_other {A} (k k' : string) (d : list (string * A)) :
  k <> k' -> Dict.get k (Dict.remove k' d) = Dict.get k d.
Proof.
  intros Hne. induction d as [|[k0 v0] d IH]; simpl; [reflexivity|].
  destruct (String.eqb k' k0) eqn:E; simpl.
  - apply String.eqb_eq in E; subst k0.
    apply String.eqb_neq in Hne. rewrite Hne. exact IH.
  - destruct (String.eqb k k0); [reflexivity | exact IH].
Qed.

(** A joined path under a top-level key starts with that key. *)
Lemma join_path_cons (k : string) (p : list string) :
  exists rest, join_path (k :: p) = (k ++ rest)%string.
Proof.
  destruct p as [|k1 p]; simpl.
  - exists ""%string. unfold join_path. simpl.
    clear. induction k as [|a k IH]; [reflexivity |].
    change (String a k = String a (k ++ ""))%string. now rewrite <- IH.
  - eexists. reflexivity.
Qed.

Lemma joined_prefix_paths_skip (k key : string) (sub : list (list string * pyval)) :
  (forall rest, (k ++ rest)%string <> key) ->
  Forall (fun kv : string * pyval => fst kv <> key)
         (map (fun pi => (join_path (fst pi), snd pi)) (prefix_paths k sub)).
Proof.
  intros Hk. unfold prefix_paths. rewrite map_map. apply Forall_map.
  apply Forall_forall. intros [p leaf] _. simpl.
  destruct (join_path_cons k p) as [rest ->]. apply Hk.
Qed.

(** The three top-level keys in sorted order: the leaves of [eval], the
    round number, the leaves of [train]. *)
Lemma flatten_metrics_layout (train_metrics eval_metrics : pyval) (r : Z) :
  flatten_metrics train_metrics eval_metrics (VInt r) =
  Dict.of_pairs
    (map (fun pi => (join_path (fst pi), snd pi))
         (prefix_paths "eval" (flatten_with_path eval_metrics)) ++
     [("round", VInt r)] ++
     map (fun pi => (join_path (fst pi), snd pi))
         (prefix_paths "train" (flatten_with_path train_metrics))).
Proof.
  unfold flatten_metrics. f_equal.
  cbn [flatten_with_path sort_by_key fold_right insert_by_key fst snd map concat].
  change (String.leb "eval" "round") with true. cbn [insert_by_key].
  change (String.leb "train" "eval") with false.
  change (String.leb "train" "round") with false.
  cbn [map concat fst snd]. rewrite app_nil_r, !map_app. reflexivity.
Qed.

(** The row written for round [r] holds [r]. *)
Lemma round_of_flatten_metrics (train_metrics eval_metrics : pyval) (r : Z) :
  round_of (flatten_metrics train_metrics eval_metrics (VInt r)) = Some r.
Proof.
  unfold round_of. rewrite flatten_metrics_layout.
  unfold Dict.of_pairs. rewrite get_update. rewrite !rev_app_distr.
  rewrite <- app_assoc.
  rewrite get_app_skip.
  - reflexivity.
  - apply Forall_rev. apply joined_prefix_paths_skip.
    intros rest; simpl; discriminate.
Qed.

(** ** The summary writer and the metrics writer *)

(** When the summary writer takes every item, each becomes an event. *)
Lemma write_summary_ok (flat_metrics : dict) (step : Z) (w : World) :
  summary_accepts flat_metrics step ->
  write_summary flat_metrics step w =
  Ok tt (mkWorld (calls w)
                 (summary w ++ map (fun nv => (fst nv, snd nv, step)) flat_metrics)
                 (metrics_csv w) (hparams_csv w)
                 (checkpoints w) (executor_builds w) (history w)).
Proof.
  revert w. induction flat_metrics as [|[name val] rest IH]; intros w Hacc; simpl.
  - unfold ret. rewrite app_nil_r. now destruct w.
  - inversion Hacc as [|? ? Hhead Hrest]; subst. simpl in Hhead.
    unfold bind, scalar. rewrite Hhead. rewrite (IH _ Hrest). simpl.
    now rewrite <- app_assoc.
Qed.

(** The two ways the loop over the items ends: all of them were taken, or
    one raised, after the events of the items before it were written. *)
Lemma write_summary_cases (flat_metrics : dict) (step : Z) (w : World) :
  match write_summary flat_metrics step w with
  | Ok _ w' =>
      summary_accepts flat_metrics step /\
      w' = mkWorld (calls w)
                   (summary w ++ map (fun nv => (fst nv, snd nv, step)) flat_metrics)
                   (metrics_csv w) (hparams_csv w)
                   (checkpoints w) (executor_builds w) (history w)
  | Raise e w' =>
      exists written name val rest,
        flat_metrics = written ++ (name, val) :: rest /\
        summary_accepts written step /\
        summary_scalar name val step = Some e /\
        w' = mkWorld (calls w)
                     (summary w ++ map (fun nv => (fst nv, snd nv, step)) written)
                     (metrics_csv w) (hparams_csv w)
                     (checkpoints w) (executor_builds w) (history w)
  end.
Proof.
  revert w. induction flat_metrics as [|[name val] rest IH]; intros w; simpl.
  - split; [constructor|]. rewrite app_nil_r. now destruct w.
  - unfold bind, scalar. destruct (summary_scalar name val step) as [e|] eqn:Hs.
    + exists [], name, val, rest. split; [reflexivity|]. split; [constructor|].
      split; [exact Hs|]. simpl. rewrite app_nil_r. now destruct w.
    + match goal with
      | |- context [write_summary rest step ?x] => specialize (IH x)
      end.
      destruct (write_summary rest step _) as [[] w'|e w'].
      * destruct IH as [Hacc ->]. simpl. split.
        -- constructor; [exact Hs | exact Hacc].
        -- now rewrite <- app_assoc.
      * destruct IH as (written & name' & val' & rest' & -> & Hacc & Hs' & ->).
        exists ((name, val) :: written), name', val', rest'.
        split; [reflexivity|]. split; [constructor; [exact Hs | exact Hacc]|].
        split; [exact Hs'|]. simpl. now rewrite <- app_assoc.
Qed.

(** With dictionaries, an integer and a summary writer that takes every
    flattened metric, the writer goes through: one scalar event per
    flattened metric, the table cut to its first [r] rows and the new row
    appended. *)
Lemma write_metrics_ok (train_metrics eval_metrics : dict) (r : Z) (w : World) :
  summary_accepts
    (flatten_metrics (VDict train_metrics) (VDict eval_metrics) (VInt r)) r ->
  _write_metrics (VDict train_metrics) (VDict eval_metrics) (VInt r) w =
  let flat_metrics :=
    flatten_metrics (VDict train_metrics) (VDict eval_metrics) (VInt r) in
  Ok tt (mkWorld (calls w)
                 (summary w ++ map (fun nv => (fst nv, snd nv, r)) flat_metrics)
                 (Some match metrics_csv w with
                       | Some metrics => py_slice_to r metrics ++ [flat_metrics]
                       | None => [flat_metrics]
                       end)
                 (hparams_csv w) (checkpoints w) (executor_builds w)
                 (Wrote (VDict train_metrics) (VDict eval_metrics) r :: history w)).
Proof.
  intros Hacc. unfold _write_metrics. cbn [isinstance_dict negb]. cbv zeta.
  unfold bind at 1. rewrite (write_summary_ok _ _ w Hacc). reflexivity.
Qed.

(** The two ways the writer ends on dictionaries and an integer: it goes
    through, or a scalar call raises; then the events before that call are
    in the summary, and the table has been neither read nor written. *)
Lemma write_metrics_cases (train_metrics eval_metrics : dict) (r : Z) (w : World) :
  let flat_metrics :=
    flatten_metrics (VDict train_metrics) (VDict eval_metrics) (VInt r) in
  match _write_metrics (VDict train_metrics) (VDict eval_metrics) (VInt r) w with
  | Ok _ w' =>
      summary_accepts flat_metrics r /\
      w' = mkWorld (calls w)
                   (summary w ++ map (fun nv => (fst nv, snd nv, r)) flat_metrics)
                   (Some match metrics_csv w with
                         | Some metrics => py_slice_to r metrics ++ [flat_metrics]
                         | None => [flat_metrics]
                         end)
                   (hparams_csv w) (checkpoints w) (executor_builds w)
                   (Wrote (VDict train_metrics) (VDict eval_metrics) r :: history w)
  | Raise e w' =>
      exists written name val rest,
        flat_metrics = written ++ (name, val) :: rest /\
        summary_accepts written r /\
        summary_scalar name val r = Some e /\
        w' = mkWorld (calls w)
                     (summary w ++ map (fun nv => (fst nv, snd nv, r)) written)
                     (metrics_csv w) (hparams_csv w)
                     (checkpoints w) (executor_builds w) (history w)
  end.
Proof.
  cbv zeta. unfold _write_metrics. cbn [isinstance_dict negb]. cbv zeta.
  unfold bind at 1.
  pose proof (write_summary_cases
                (flatten_metrics (VDict train_metrics) (VDict eval_metrics) (VInt r))
                r w) as Hcases.
  destruct (write_summary _ r w) as [[] w'|e w'].
  - destruct Hcases as [Hacc ->]. split; [exact Hacc | reflexivity].
  - exact Hcases.
Qed.

(** What a raise of the writer on dictionaries and an integer leaves. *)
Lemma write_metrics_raise (train_metrics eval_metrics : dict) (r : Z)
      (w w' : World) (e : exn) :
  _write_metrics (VDict train_metrics) (VDict eval_metrics) (VInt r) w = Raise e w' ->
  calls w' = calls w /\
  metrics_csv w' = metrics_csv w /\
  hparams_csv w' = hparams_csv w /\
  checkpoints w' = checkpoints w /\
  executor_builds w' = executor_builds w /\
  history w' = history w /\
  (exists logged, summary w' = summary w ++ logged /\
                  Forall (fun ev => snd ev = r) logged) /\
  exists name val,
    In (name, val)
       (flatten_metrics (VDict train_metrics) (VDict eval_metrics) (VInt r)) /\
    summary_scalar name val r = Some e.
Proof.
  intros Hraise.
  pose proof (write_metrics_cases train_metrics eval_metrics r w) as Hcases.
  cbv zeta in Hcases. rewrite Hraise in Hcases.
  destruct Hcases as (written & name & val & rest & Hflat & _ & Hs & ->). simpl.
  repeat (split; [reflexivity|]). split.
  - eexists. split; [reflexivity|].
    apply Forall_map, Forall_forall. intros nv _. reflexivity.
  - exists name, val. split; [|exact Hs]. rewrite Hflat.
    apply in_or_app. right. now left.
Qed.

(** Steps through a call of the writer in the goal: it went through, with
    the world that leaves, or it raised. *)
Ltac writer_cases wm Hwm :=
  match goal with
  | |- context [wm (VDict ?t) (VDict ?e) (VInt ?r) ?w0] =>
      let Hc := fresh "Hwriter" in
      let Hw := fresh "Hwrite" in
      pose proof (write_metrics_cases t e r w0) as Hc; cbv zeta in Hc;
      rewrite <- Hwm in Hc;
      destruct (wm (VDict t) (VDict e) (VInt r) w0) as [[] ?w3|?e3 ?w3] eqn:Hw;
      [destruct Hc as [Hc ->] | ]
  end.

(** ** One pass of the loop *)

(** A pass whose [next] raises a fault the handler catches. *)
Lemma loop_body_retry (l : locals) (w : World) (e : exn) :
  attempt_at l w = inl e ->
  caught_by_retry e = true ->
  loop_body l w =
  Ok l (mkWorld (5 + calls w)%nat (summary w) (metrics_csv w) (hparams_csv w)
                (checkpoints w) (S (executor_builds w))
                (Attempt (round_num l) (snd (sampled_at l w)) false :: history w)).
Proof.
  unfold attempt_at, sampled_at. intros Hnext Hcaught.
  unfold loop_body, bind, time, call_client_datasets_fn, call_next. simpl.
  rewrite Hnext, Hcaught. reflexivity.
Qed.

(** A pass whose [next] raises anything else. *)
Lemma loop_body_fatal (l : locals) (w : World) (e : exn) :
  attempt_at l w = inl e ->
  caught_by_retry e = false ->
  exists w', loop_body l w = Raise e w' /\
    checkpoints w' = checkpoints w /\ metrics_csv w' = metrics_csv w /\
    history w' = history w /\
    executor_builds w' = executor_builds w /\ summary w' = summary w.
Proof.
  unfold attempt_at, sampled_at. intros Hnext Hcaught.
  unfold loop_body, bind, time, call_client_datasets_fn, call_next. simpl.
  rewrite Hnext, Hcaught. eexists; split; [reflexivity|]. simpl. repeat split.
Qed.

Lemma mem_existsb {A} (k : string) (d : list (string * A)) :
  Dict.mem k d = existsb (fun kv => String.eqb k (fst kv)) d.
Proof.
  unfold Dict.mem. induction d as [|[k0 v0] d IH]; simpl; [reflexivity|].
  destruct (String.eqb k k0); [reflexivity | exact IH].
Qed.

Lemma mem_rev {A} (k : string) (d : list (string * A)) :
  Dict.mem k (rev d) = Dict.mem k d.
Proof.
  rewrite !mem_existsb. induction d as [|kv d IH]; simpl; [reflexivity|].
  rewrite existsb_app, IH. simpl. rewrite orb_false_r. apply orb_comm.
Qed.

Lemma mem_update {A} (k : string) (d other : list (string * A)) :
  Dict.mem k (Dict.update d other) = Dict.mem k other || Dict.mem k d.
Proof.
  rewrite <- (mem_rev k other). unfold Dict.mem at 1 2. rewrite get_update.
  destruct (Dict.get k (rev other)); reflexivity.
Qed.

Lemma get_update_absent {A} (k : string) (d other : list (string * A)) :
  Dict.mem k other = false ->
  Dict.get k (Dict.update d other) = Dict.get k d.
Proof.
  intros H. rewrite get_update. rewrite <- mem_rev in H. unfold Dict.mem in H.
  destruct (Dict.get k (rev other)); [discriminate | reflexivity].
Qed.

Lemma mem_remove_same {A} (k : string) (d : list (string * A)) :
  Dict.mem k (Dict.remove k d) = false.
Proof. unfold Dict.mem. now rewrite get_remove_same. Qed.

(** A pass whose [next] returns: what must have held for the pass to get
    through, and what it left behind. *)
Lemma loop_body_success (l l' : locals) (w w' : World) (s' : State) (m : dict) :
  attempt_at l w = inr (s', m) ->
  loop_body l w = Ok l' w' ->
  Dict.mem "keras_training_time_client_sum_sec" m = true /\
  rounds_per_checkpoint <> 0 /\
  rounds_per_eval <> 0 /\
  l' = mkLocals s' (round_num l + 1)
                (unique_clients l ∪ list_to_set (snd (sampled_at l w))) /\
  checkpoints w' =
    (if checkpoint_due (round_num l)
     then (round_num l, s') :: checkpoints w else checkpoints w) /\
  executor_builds w' = executor_builds w /\
  exists train_metrics eval_metrics,
    history w' = pass_events l w train_metrics eval_metrics s' ++ history w /\
    Dict.get "keras_training_time_client_sum_sec" train_metrics = None /\
    (Dict.mem "num_unique_clients" m = false ->
     Dict.get "num_unique_clients" train_metrics =
       Some (VInt (Z.of_nat (size (unique_clients l ∪
                                   list_to_set (snd (sampled_at l w))))))).
Proof.
  unfold attempt_at, sampled_at, pass_events, checkpoint_due. intros Hnext.
  unfold loop_body, bind, time, call_client_datasets_fn, call_next.
  remember _write_metrics as wm eqn:Hwm. simpl.
  rewrite Hnext. simpl. unfold pop. rewrite mem_update.
  rewrite orb_false_r.
  destruct (Dict.mem "keras_training_time_client_sum_sec" m) eqn:Hkey;
    [|discriminate]. simpl.
  destruct (round_num l + 1 =? 0); [discriminate|]. simpl.
  unfold py_mod.
  destruct (rounds_per_checkpoint =? 0) eqn:Hcp; [discriminate|]. simpl.
  apply Z.eqb_neq in Hcp.
  destruct (rounds_per_eval =? 0) eqn:Hev.
  { destruct ((round_num l mod rounds_per_checkpoint =? 0)
              || (round_num l =? total_rounds - 1)); discriminate. }
  apply Z.eqb_neq in Hev.
  assert (Hgone : forall d : dict,
    Dict.get "keras_training_time_client_sum_sec"
      (Dict.remove "keras_training_time_client_sum_sec" d) = None)
    by (intros; apply get_remove_same).
  assert (Hcount : forall base : dict,
    Dict.mem "num_unique_clients" m = false ->
    Dict.get "num_unique_clients"
      (Dict.remove "keras_training_time_client_sum_sec" (Dict.update base m)) =
    Dict.get "num_unique_clients" base).
  { intros base Hm. rewrite get_remove_other by discriminate.
    now apply get_update_absent. }
  destruct ((round_num l mod rounds_per_checkpoint =? 0)
            || (round_num l =? total_rounds - 1));
    simpl; destruct (round_num l mod rounds_per_eval =? 0); simpl;
    try (writer_cases wm Hwm; [|discriminate]);
    intros H; injection H as <- <-; simpl;
    refine (conj eq_refl (conj Hcp (conj Hev (conj eq_refl
             (conj eq_refl (conj eq_refl _))))));
    eexists; eexists; try exact (@nil (string * pyval));
    (split; [reflexivity|]); split;
    try (rewrite get_set; simpl; apply Hgone); try apply Hgone;
    intros Hm; try (rewrite get_set; simpl); rewrite Hcount by exact Hm;
    reflexivity.
Qed.


(** A pass that raises has recorded at most its attempt and, when the
    writer raised, the evaluation that came before it. *)
Lemma loop_body_raise_history (l : locals) (w w' : World) (e : exn) :
  loop_body l w = Raise e w' ->
  history w' = history w \/
  history w' = Attempt (round_num l) (snd (sampled_at l w)) true :: history w \/
  exists s',
    history w' =
      Evaluated s' false ::
      Attempt (round_num l) (snd (sampled_at l w)) true :: history w.
Proof.
  unfold sampled_at.
  unfold loop_body, bind, time, call_client_datasets_fn, call_next.
  remember _write_metrics as wm eqn:Hwm. simpl.
  destruct (next _ _ _) as [e0|[s' m]]; simpl.
  - destruct (caught_by_retry e0); [discriminate|].
    unfold raise. intros H; injection H as <- <-. now left.
  - unfold pop. destruct (Dict.mem _ _); simpl;
      [|intros H; injection H as <- <-; right; now left].
    destruct (round_num l + 1 =? 0); simpl;
      [intros H; injection H as <- <-; right; now left|].
    unfold py_mod.
    destruct (rounds_per_checkpoint =? 0); simpl;
      [intros H; injection H as <- <-; right; now left|].
    destruct ((round_num l mod rounds_per_checkpoint =? 0)
              || (round_num l =? total_rounds - 1)); simpl;
      (destruct (rounds_per_eval =? 0); simpl;
       [intros H; injection H as <- <-; right; now left|]);
      (destruct (round_num l mod rounds_per_eval =? 0); simpl; [|discriminate]);
      (writer_cases wm Hwm; [discriminate|]);
      subst wm;
      match goal with
      | Hw : _write_metrics _ _ _ _ = Raise _ _ |- _ =>
          apply write_metrics_raise in Hw;
          destruct Hw as (_ & _ & _ & _ & _ & Hh & _)
      end;
      intros H; injection H as <- <-; right; right; exists s'; exact Hh.
Qed.

(** ** The loop *)

(** An invariant of the passes holds wherever the loop stops. *)
Lemma while_loop_invariant (P : locals -> World -> Prop) (R : World -> Prop) :
  (forall l w l' w',
      round_num l < total_rounds -> P l w -> loop_body l w = Ok l' w' -> P l' w') ->
  (forall l w e w',
      round_num l < total_rounds -> P l w -> loop_body l w = Raise e w' -> R w') ->
  forall fuel l w,
    P l w ->
    match while_loop fuel l w with
    | Returned l' w' => P l' w' /\ total_rounds <= round_num l'
    | Running l' w' => P l' w' /\ round_num l' < total_rounds
    | Raised _ w' => R w'
    end.
Proof.
  intros Hok Hraise. induction fuel as [|fuel IH]; intros l w HP; simpl.
  - destruct (round_num l <? total_rounds) eqn:Hlt.
    + apply Z.ltb_lt in Hlt. auto.
    + apply Z.ltb_ge in Hlt. auto.
  - destruct (round_num l <? total_rounds) eqn:Hlt.
    + apply Z.ltb_lt in Hlt.
      destruct (loop_body l w) as [l1 w1|e w1] eqn:Hbody.
      * apply IH. eapply Hok; eauto.
      * eapply Hraise; eauto.
    + apply Z.ltb_ge in Hlt. auto.
Qed.

(** Every pass that comes back is a retry or a round that got through. *)
Lemma loop_body_ok_cases (l l' : locals) (w w' : World) :
  loop_body l w = Ok l' w' ->
  (exists e, attempt_at l w = inl e /\ caught_by_retry e = true) \/
  (exists s' m, attempt_at l w = inr (s', m)).
Proof.
  intros Hbody. destruct (attempt_at l w) as [e|[s' m]] eqn:Hnext.
  - left. exists e. split; [reflexivity|].
    destruct (caught_by_retry e) eqn:Hc; [reflexivity|].
    destruct (loop_body_fatal l w e Hnext Hc) as (w1 & Hr & _). congruence.
  - right. eauto.
Qed.

(** ** The metrics writer and the table *)

(** In a table with one row per round, the first [n] rows are the rows of
    the rounds below [n]. *)
Lemma dense_firstn_filter (rows : list dict) (a : nat) (r : Z) :
  map round_of rows = map (fun i => Some (Z.of_nat i)) (seq a (length rows)) ->
  0 <= r ->
  firstn (Z.to_nat r - a) rows =
  List.filter (fun row => match round_of row with
                          | Some q => q <? r
                          | None => false
                          end) rows.
Proof.
  revert a. induction rows as [|row rows IH]; intros a Hdense Hr; simpl.
  - now rewrite firstn_nil.
  - simpl in Hdense. injection Hdense as Hrow Hrest. rewrite Hrow.
    destruct (Z.of_nat a <? r) eqn:Hlt.
    + apply Z.ltb_lt in Hlt.
      replace (Z.to_nat r - a)%nat with (S (Z.to_nat r - S a)) by lia.
      simpl. f_equal. now apply IH.
    + apply Z.ltb_ge in Hlt.
      replace (Z.to_nat r - a)%nat with 0%nat by lia. simpl.
      rewrite <- (IH (S a) Hrest Hr).
      now replace (Z.to_nat r - S a)%nat with 0%nat by lia.
Qed.

Lemma rounds_upto_app_NoDup (n : nat) (r : Z) :
  Z.of_nat n <= r -> NoDup (rounds_upto n ++ [Some r]).
Proof.
  intros Hn. unfold rounds_upto. apply NoDup_app. split; [|split].
  - apply NoDup_fmap_2; [|apply NoDup_seq].
    intros i j Hij. injection Hij as Hij. lia.
  - intros x Hx Hr. apply list_elem_of_fmap in Hx as (i & -> & Hi).
    apply list_elem_of_In, in_seq in Hi.
    apply list_elem_of_singleton in Hr. injection Hr as Hr. lia.
  - apply NoDup_singleton.
Qed.

(** X15. For a round number [r >= 0], an existing metrics table whose i-th
    row (from 0) holds round number i, and flattened metrics that the summary
    writer takes, the writer removes all rows whose round number is greater
    than or equal to [r] (the rows kept are those with a round number below
    [r]) before it appends the new row for [r], and exactly one row per
    round number remains. *)
Theorem write_metrics_truncates_dense_table
    (train_metrics eval_metrics : dict) (r : Z) (rows : list dict) (w : World) :
  0 <= r ->
  metrics_csv w = Some rows ->
  map round_of rows = rounds_upto (length rows) ->
  summary_accepts
    (flatten_metrics (VDict train_metrics) (VDict eval_metrics) (VInt r)) r ->
  exists w' kept new_row,
    _write_metrics (VDict train_metrics) (VDict eval_metrics) (VInt r) w = Ok tt w' /\
    metrics_csv w' = Some (kept ++ [new_row]) /\
    kept = List.filter (fun row => match round_of row with
                                   | Some q => q <? r
                                   | None => false
                                   end) rows /\
    round_of new_row = Some r /\
    NoDup (map round_of (kept ++ [new_row])).
Proof.
  intros Hr Hfile Hdense Hacc. rewrite write_metrics_ok by exact Hacc.
  cbv zeta. rewrite Hfile.
  assert (Hkept : py_slice_to r rows =
                  List.filter (fun row => match round_of row with
                                          | Some q => q <? r
                                          | None => false
                                          end) rows).
  { unfold py_slice_to. destruct (r <? 0) eqn:Hneg; [apply Z.ltb_lt in Hneg; lia|].
    rewrite <- (dense_firstn_filter rows 0 r Hdense Hr).
    now rewrite Nat.sub_0_r. }
  eexists. exists (py_slice_to r rows). eexists.
  split; [reflexivity|]. split; [reflexivity|]. split; [exact Hkept|].
  split; [apply round_of_flatten_metrics|].
  rewrite map_app. simpl. rewrite round_of_flatten_metrics.
  unfold py_slice_to. destruct (r <? 0) eqn:Hneg; [apply Z.ltb_lt in Hneg; lia|].
  rewrite <- firstn_map, Hdense. unfold rounds_upto.
  rewrite firstn_map, take_seq.
  apply rounds_upto_app_NoDup. lia.
Qed.

(** C5. When the train metrics are not a [dict], or the eval metrics are
    not a [dict], or the round number is not an [int], the writer raises a
    [TypeError] and the world is as it was: nothing has reached the summary
    writer or the metrics table. *)
Theorem write_metrics_rejects_malformed
    (train_metrics eval_metrics round_num : pyval) (w : World) :
  isinstance_dict train_metrics = false \/
  isinstance_dict eval_metrics = false \/
  isinstance_int round_num = false ->
  exists msg,
    _write_metrics train_metrics eval_metrics round_num w = Raise (TypeError msg) w.
Proof.
  intros H. unfold _write_metrics.
  destruct (isinstance_dict train_metrics) eqn:Ht; simpl; [|eexists; reflexivity].
  destruct (isinstance_dict eval_metrics) eqn:He; simpl; [|eexists; reflexivity].
  destruct H as [H|[H|H]]; try discriminate.
  destruct round_num; try discriminate; eexists; reflexivity.
Qed.

(** ** Retries *)

(** C2. While the round-compute call keeps raising
    [FailedPreconditionError], [NotFoundError] or [InternalError], the loop
    rebuilds the default executor and goes round again with the same round
    number and the same state: after any number [n] of such faults it is
    still running, at the locals it started from, with [n] rebuilds and [n]
    attempts at that round behind it, and no exception has come out. *)
Theorem transient_faults_retry_without_cap (n : nat) (l : locals) (w : World) :
  round_num l < total_rounds ->
  (forall j, (j < n)%nat ->
     exists k msg,
       next (5 * j + 4 + calls w)%nat (state l)
            (fst (client_datasets_fn (5 * j + 1 + calls w)%nat (round_num l))) =
       inl (OpError k msg) /\
       (k = FailedPreconditionError \/ k = NotFoundError \/ k = InternalError)) ->
  exists w',
    while_loop n l w = Running l w' /\
    executor_builds w' = (executor_builds w + n)%nat /\
    attempt_rounds (history w') = repeat (round_num l) n ++ attempt_rounds (history w) /\
    checkpoints w' = checkpoints w /\
    metrics_csv w' = metrics_csv w.
Proof.
  intros Hlt. apply Z.ltb_lt in Hlt.
  revert w. induction n as [|n IH]; intros w Hfaults.
  - exists w. simpl. rewrite Hlt. repeat split. lia.
  - destruct (Hfaults 0%nat ltac:(lia)) as (k & msg & Hnext & Hk).
    assert (Hcaught : caught_by_retry (OpError k msg) = true)
      by (destruct Hk as [->|[->| ->]]; reflexivity).
    pose proof (loop_body_retry l w (OpError k msg) Hnext Hcaught) as Hbody.
    match type of Hbody with _ = Ok _ ?x => set (w1 := x) in * end.
    destruct (IH w1) as (w' & Hloop & Hbuilds & Hatt & Hcp & Hcsv).
    { intros j Hj. destruct (Hfaults (S j) ltac:(lia)) as (k' & msg' & Hn' & Hk').
      exists k', msg'. split; [|exact Hk'].
      subst w1. cbn [calls].
      replace (5 * j + 4 + (5 + calls w))%nat
        with (5 * S j + 4 + calls w)%nat by lia.
      replace (5 * j + 1 + (5 + calls w))%nat
        with (5 * S j + 1 + calls w)%nat by lia.
      exact Hn'. }
    exists w'. simpl. rewrite Hlt, Hbody. split; [exact Hloop|].
    rewrite Hbuilds, Hatt, Hcp, Hcsv. subst w1. cbn.
    split; [lia|]. split; [|split; reflexivity].
    change (round_num l :: repeat (round_num l) n ++ attempt_rounds (history w))
      with ((round_num l :: repeat (round_num l) n) ++ attempt_rounds (history w)).
    rewrite repeat_cons, <- app_assoc. reflexivity.
Qed.

(** ** The popped key *)


(** ** The checkpoints found at startup *)

Lemma latest_checkpoint_none (store : list (Z * State)) :
  latest_checkpoint store = None <-> store = [].
Proof.
  split; [|intros ->; reflexivity].
  destruct store as [|[r s] older]; [reflexivity|]. simpl.
  destruct (latest_checkpoint older) as [[r' s']|]; [|discriminate].
  destruct (r' <=? r); discriminate.
Qed.

Lemma latest_checkpoint_max (store : list (Z * State)) (r : Z) (s : State) :
  latest_checkpoint store = Some (r, s) ->
  (r, s) ∈ store /\ forall c, c ∈ store -> fst c <= r.
Proof.
  revert r s. induction store as [|[r0 s0] older IH]; intros r s; simpl;
    [discriminate|].
  destruct (latest_checkpoint older) as [[r' s']|] eqn:Hold.
  - destruct (IH r' s' eq_refl) as [Hin Hmax].
    destruct (r' <=? r0) eqn:Hle; intros H; injection H as <- <-.
    + apply Z.leb_le in Hle. split; [left|].
      intros c Hc. apply elem_of_cons in Hc as [->|Hc]; simpl; [lia|].
      specialize (Hmax c Hc). lia.
    + apply Z.leb_gt in Hle. split; [now right|].
      intros c Hc. apply elem_of_cons in Hc as [->|Hc]; simpl; [lia|].
      now apply Hmax.
  - intros H; injection H as <- <-. apply latest_checkpoint_none in Hold.
    subst older. split; [left|].
    intros c Hc. apply list_elem_of_singleton in Hc as ->. simpl. lia.
Qed.


(** [run] up to the loop, in one step. *)
Lemma startup_ok (w : World) :
  startup w =
  Ok (mkLocals
        match latest_checkpoint (checkpoints w) with
        | Some (_, s) => s
        | None => initialize (calls w)
        end
        (resume_round (checkpoints w)) ∅)
     (mkWorld (2 + calls w)%nat (summary w) (metrics_csv w)
              (Some (Dict.set "metrics_file" (VStr metrics_file) hparam_flags))
              (checkpoints w) (executor_builds w) (history w)).
Proof.
  unfold startup, resume_round, bind, call_initialize, load_latest_checkpoint.
  simpl. destruct (latest_checkpoint (checkpoints w)) as [[r s]|]; reflexivity.
Qed.

(** [run] after the loop: the evaluation on the test dataset and the
    writer, which goes through or raises in a scalar call. *)
Lemma wrapup_cases (s : State) (w : World) :
  match wrapup s w with
  | Ok s1 w' =>
      s1 = s /\
      summary_accepts (final_row_at (calls w) s) total_rounds /\
      w' = mkWorld (3 + calls w)%nat
             (summary w ++
              map (fun nv => (fst nv, snd nv, total_rounds))
                  (final_row_at (calls w) s))
             (Some (match metrics_csv w with
                    | Some metrics => py_slice_to total_rounds metrics
                    | None => []
                    end ++ [final_row_at (calls w) s]))
             (hparams_csv w) (checkpoints w) (executor_builds w)
             (Wrote (VDict []) (VDict (test_metrics_at (calls w) s)) total_rounds ::
              Evaluated s true :: history w)
  | Raise e w' =>
      calls w' = (3 + calls w)%nat /\
      metrics_csv w' = metrics_csv w /\
      hparams_csv w' = hparams_csv w /\
      checkpoints w' = checkpoints w /\
      executor_builds w' = executor_builds w /\
      history w' = Evaluated s true :: history w /\
      (exists logged, summary w' = summary w ++ logged /\
                      Forall (fun ev => snd ev = total_rounds) logged) /\
      exists name val,
        In (name, val) (final_row_at (calls w) s) /\
        summary_scalar name val total_rounds = Some e
  end.
Proof.
  unfold wrapup, bind, time, call_evaluate_fn, bind, note.
  remember _write_metrics as wm eqn:Hwm. simpl.
  writer_cases wm Hwm.
  - split; [reflexivity|].
    split; [match goal with H : summary_accepts _ _ |- _ => exact H end|].
    unfold final_row_at, test_metrics_at. simpl.
    destruct (metrics_csv w); reflexivity.
  - subst wm.
    match goal with
    | Hw : _write_metrics _ _ _ _ = Raise _ _ |- _ =>
        apply write_metrics_raise in Hw; simpl in Hw; exact Hw
    end.
Qed.

(** What the wrap-up leaves when it returns. *)
Lemma wrapup_inv (s s1 : State) (w w1 : World) :
  wrapup s w = Ok s1 w1 ->
  s1 = s /\
  history w1 =
    Wrote (VDict []) (VDict (test_metrics_at (calls w) s)) total_rounds ::
    Evaluated s true :: history w /\
  checkpoints w1 = checkpoints w /\
  executor_builds w1 = executor_builds w /\
  metrics_csv w1 =
    Some (match metrics_csv w with
          | Some metrics => py_slice_to total_rounds metrics
          | None => []
          end ++ [final_row_at (calls w) s]) /\
  summary w1 =
    summary w ++
    map (fun nv => (fst nv, snd nv, total_rounds)) (final_row_at (calls w) s).
Proof.
  intros Hwrap. pose proof (wrapup_cases s w) as Hcases. rewrite Hwrap in Hcases.
  destruct Hcases as (-> & _ & ->). repeat split.
Qed.

(** What the wrap-up leaves when its writer raises. *)
Lemma wrapup_raise (s : State) (w w1 : World) (e : exn) :
  wrapup s w = Raise e w1 ->
  history w1 = Evaluated s true :: history w /\
  checkpoints w1 = checkpoints w /\
  executor_builds w1 = executor_builds w /\
  metrics_csv w1 = metrics_csv w /\
  exists logged, summary w1 = summary w ++ logged /\
                 Forall (fun ev => snd ev = total_rounds) logged.
Proof.
  intros Hwrap. pose proof (wrapup_cases s w) as Hcases. rewrite Hwrap in Hcases.
  destruct Hcases as (_ & Hcsv & _ & Hcp & Hb & Hh & Hs & _).
  repeat split; assumption.
Qed.


(** Every pass that comes back: a retry, or a round that got through. *)
Lemma loop_body_ok_inv (l l' : locals) (w w' : World) :
  loop_body l w = Ok l' w' ->
  (l' = l /\
   history w' = Attempt (round_num l) (snd (sampled_at l w)) false :: history w /\
   checkpoints w' = checkpoints w) \/
  (exists s' m train_metrics eval_metrics,
     attempt_at l w = inr (s', m) /\
     l' = mkLocals s' (round_num l + 1)
                   (unique_clients l ∪ list_to_set (snd (sampled_at l w))) /\
     checkpoints w' =
       (if checkpoint_due (round_num l)
        then (round_num l, s') :: checkpoints w else checkpoints w) /\
     history w' = pass_events l w train_metrics eval_metrics s' ++ history w /\
     (Dict.mem "num_unique_clients" m = false ->
      Dict.get "num_unique_clients" train_metrics =
        Some (VInt (Z.of_nat (size (unique_clients l ∪
                                    list_to_set (snd (sampled_at l w)))))))).
Proof.
  intros Hbody. destruct (loop_body_ok_cases l l' w w' Hbody)
    as [(e & Hnext & Hc)|(s' & m & Hnext)].
  - left. rewrite (loop_body_retry l w e Hnext Hc) in Hbody.
    injection Hbody as <- <-. repeat split.
  - right.
    destruct (loop_body_success l l' w w' s' m Hnext Hbody)
      as (_ & _ & _ & Hl & Hcp & _ & tm & em & Hh & _ & Hn).
    exists s', m, tm, em. repeat split; assumption.
Qed.

(** ** Histories *)

Lemma attempt_rounds_pass (l : locals) (w : World) (tm em : dict) (s' : State)
      (h : list event) :
  attempt_rounds (pass_events l w tm em s' ++ h) = round_num l :: attempt_rounds h.
Proof.
  unfold pass_events. destruct (round_num l mod rounds_per_eval =? 0); reflexivity.
Qed.

Lemma clients_of_pass (l : locals) (w : World) (tm em : dict) (s' : State)
      (h : list event) :
  clients_of (pass_events l w tm em s' ++ h) =
  clients_of h ∪ list_to_set (snd (sampled_at l w)).
Proof.
  unfold pass_events. destruct (round_num l mod rounds_per_eval =? 0); reflexivity.
Qed.

Lemma counts_agree_pass (l : locals) (w : World) (tm em : dict) (s' : State)
      (h : list event) :
  Dict.get "num_unique_clients" tm =
    Some (VInt (Z.of_nat (size (clients_of h ∪
                                list_to_set (snd (sampled_at l w)))))) ->
  counts_agree h ->
  counts_agree (pass_events l w tm em s' ++ h).
Proof.
  intros Hn Hh. unfold pass_events.
  destruct (round_num l mod rounds_per_eval =? 0); simpl; split; assumption.
Qed.

Lemma in_loop_pass (l : locals) (w : World) (tm em : dict) (s' : State) :
  round_num l < total_rounds ->
  Forall in_loop_event (pass_events l w tm em s').
Proof.
  intros Hlt. unfold pass_events.
  destruct (round_num l mod rounds_per_eval =? 0); simpl;
    repeat constructor; assumption.
Qed.

(** [run] is the startup, the loop and the wrap-up. *)
Lemma run_unfold (fuel : nat) (w : World) :
  exists l0 w0,
    startup w = Ok l0 w0 /\
    round_num l0 = resume_round (checkpoints w) /\
    state l0 = match latest_checkpoint (checkpoints w) with
               | Some (_, s) => s
               | None => initialize (calls w)
               end /\
    unique_clients l0 = ∅ /\
    history w0 = history w /\ checkpoints w0 = checkpoints w /\
    run fuel w =
    match while_loop fuel l0 w0 with
    | Returned l' w2 =>
        match wrapup (state l') w2 with
        | Ok s w3 => Returned s w3
        | Raise e w3 => Raised e w3
        end
    | Raised e w2 => Raised e w2
    | Running l' w2 => Running l' w2
    end.
Proof.
  eexists. eexists. split; [apply startup_ok|].
  unfold run. rewrite startup_ok. repeat split.
Qed.

(** ** Resumption *)

Lemma resume_round_above (store : list (Z * State)) (c : Z * State) :
  c ∈ store -> fst c < resume_round store.
Proof.
  intros Hc. unfold resume_round.
  destruct (latest_checkpoint store) as [[r s]|] eqn:Hlatest.
  - apply latest_checkpoint_max in Hlatest as [_ Hmax].
    specialize (Hmax c Hc). lia.
  - apply latest_checkpoint_none in Hlatest. subst store.
    now apply elem_of_nil in Hc.
Qed.

(** The loop attempts no round below the one it started from. *)
Lemma while_loop_attempts (fuel : nat) (l : locals) (w : World) :
  exists added,
    history (final_world (while_loop fuel l w)) = added ++ history w /\
    Forall (fun r => round_num l <= r) (attempt_rounds added).
Proof.
  pose (P := fun (l1 : locals) (w1 : World) =>
    round_num l <= round_num l1 /\
    exists added, history w1 = added ++ history w /\
      Forall (fun r => round_num l <= r) (attempt_rounds added)).
  pose (R := fun (w1 : World) =>
    exists added, history w1 = added ++ history w /\
      Forall (fun r => round_num l <= r) (attempt_rounds added)).
  assert (H : match while_loop fuel l w with
              | Returned l' w' => P l' w' /\ total_rounds <= round_num l'
              | Running l' w' => P l' w' /\ round_num l' < total_rounds
              | Raised _ w' => R w'
              end).
  { apply while_loop_invariant.
    - intros l1 w1 l2 w2 _ (Hle & added & Hh & Hall) Hbody.
      destruct (loop_body_ok_inv l1 l2 w1 w2 Hbody)
        as [(-> & Hh2 & _)|(s' & m & tm & em & _ & -> & _ & Hh2 & _)].
      + split; [exact Hle|].
        exists (Attempt (round_num l1) (snd (sampled_at l1 w1)) false :: added).
        rewrite Hh2, Hh. split; [reflexivity|]. simpl. now constructor.
      + split; [simpl; lia|].
        exists (pass_events l1 w1 tm em s' ++ added).
        rewrite Hh2, Hh, app_assoc. split; [reflexivity|].
        rewrite attempt_rounds_pass. now constructor.
    - intros l1 w1 e w2 _ (Hle & added & Hh & Hall) Hbody.
      destruct (loop_body_raise_history l1 w1 w2 e Hbody)
        as [Hh2|[Hh2|(s' & Hh2)]].
      + exists added. now rewrite Hh2.
      + exists (Attempt (round_num l1) (snd (sampled_at l1 w1)) true :: added).
        rewrite Hh2, Hh. split; [reflexivity|]. simpl. now constructor.
      + exists (Evaluated s' false ::
                Attempt (round_num l1) (snd (sampled_at l1 w1)) true :: added).
        rewrite Hh2, Hh. split; [reflexivity|]. simpl. now constructor.
    - split; [lia|]. exists []. split; [reflexivity | constructor]. }
  destruct (while_loop fuel l w) as [l' w'|e w'|l' w']; simpl.
  - destruct H as [(_ & H) _]. exact H.
  - exact H.
  - destruct H as [(_ & H) _]. exact H.
Qed.

(** C3. At startup, with no checkpoint in the store the loop starts from
    the initial state of the process at round 0; otherwise it starts from
    the state of the latest checkpoint, the one with the highest round
    number, at that round number plus one; and whatever the loop does
    next, it attempts no round that has a checkpoint in the store. *)
Theorem startup_resumes_after_latest_checkpoint (fuel : nat) (w : World) :
  (checkpoints w = [] ->
   exists w0, startup w = Ok (mkLocals (initialize (calls w)) 0 ∅) w0) /\
  (checkpoints w <> [] ->
   exists r s w0,
     latest_checkpoint (checkpoints w) = Some (r, s) /\
     (r, s) ∈ checkpoints w /\
     (forall c, c ∈ checkpoints w -> fst c <= r) /\
     startup w = Ok (mkLocals s (r + 1) ∅) w0) /\
  (exists added,
     history (final_world (run fuel w)) = added ++ history w /\
     forall r c, r ∈ attempt_rounds added -> c ∈ checkpoints w -> fst c < r).
Proof.
  split; [|split].
  - intros Hempty. eexists. rewrite startup_ok. unfold resume_round.
    rewrite Hempty. reflexivity.
  - intros Hstore.
    destruct (latest_checkpoint (checkpoints w)) as [[r s]|] eqn:Hlatest;
      [|now apply latest_checkpoint_none in Hlatest].
    destruct (latest_checkpoint_max _ _ _ Hlatest) as [Hin Hmax].
    exists r, s. eexists. split; [reflexivity|]. split; [exact Hin|].
    split; [exact Hmax|]. rewrite startup_ok. unfold resume_round.
    rewrite Hlatest. reflexivity.
  - destruct (run_unfold fuel w) as (l0 & w0 & _ & Hround & _ & _ & Hh0 & _ & Hrun).
    destruct (while_loop_attempts fuel l0 w0) as (added & Hh & Hall).
    rewrite Hround, Hh0 in *.
    assert (Habove : forall r c, r ∈ attempt_rounds added ->
                                 c ∈ checkpoints w -> fst c < r).
    { intros r c Hr Hc. rewrite Forall_forall in Hall.
      specialize (Hall r Hr).
      pose proof (resume_round_above _ c Hc). lia. }
    rewrite Hrun. destruct (while_loop fuel l0 w0) as [l' w'|e w'|l' w'];
      simpl in Hh.
    + destruct (wrapup (state l') w') as [s1 w3|e w3] eqn:Hwrap; simpl.
      * apply wrapup_inv in Hwrap as (_ & Hh3 & _).
        exists (Wrote (VDict []) (VDict (test_metrics_at (calls w') (state l')))
                      total_rounds ::
                Evaluated (state l') true :: added).
        rewrite Hh3, Hh. split; [reflexivity|]. simpl. exact Habove.
      * apply wrapup_raise in Hwrap as (Hh3 & _).
        exists (Evaluated (state l') true :: added).
        rewrite Hh3, Hh. split; [reflexivity|]. simpl. exact Habove.
    + exists added. split; assumption.
    + exists added. split; assumption.
Qed.

(** ** The clients seen *)


Lemma while_loop_counts (fuel : nat) (l : locals) (w : World) :
  (forall i s data s' m,
      next i s data = inr (s', m) -> Dict.mem "num_unique_clients" m = false) ->
  unique_clients l = ∅ ->
  exists added,
    history (final_world (while_loop fuel l w)) = added ++ history w /\
    counts_agree added.
Proof.
  intros Hprocess Hfresh.
  pose (P := fun (l1 : locals) (w1 : World) =>
    exists added, history w1 = added ++ history w /\
      unique_clients l1 = clients_of added /\ counts_agree added).
  pose (R := fun (w1 : World) =>
    exists added, history w1 = added ++ history w /\ counts_agree added).
  assert (H : match while_loop fuel l w with
              | Returned l' w' => P l' w' /\ total_rounds <= round_num l'
              | Running l' w' => P l' w' /\ round_num l' < total_rounds
              | Raised _ w' => R w'
              end).
  { apply while_loop_invariant.
    - intros l1 w1 l2 w2 _ (added & Hh & Hset & Hagree) Hbody.
      destruct (loop_body_ok_inv l1 l2 w1 w2 Hbody)
        as [(-> & Hh2 & _)|(s' & m & tm & em & Hnext & -> & _ & Hh2 & Hcount)].
      + exists (Attempt (round_num l1) (snd (sampled_at l1 w1)) false :: added).
        rewrite Hh2, Hh. repeat split; assumption.
      + exists (pass_events l1 w1 tm em s' ++ added).
        rewrite Hh2, Hh, app_assoc. split; [reflexivity|].
        rewrite clients_of_pass. simpl. rewrite Hset. split; [reflexivity|].
        apply counts_agree_pass; [|exact Hagree].
        rewrite <- Hset. apply Hcount.
        unfold attempt_at in Hnext. eapply Hprocess. exact Hnext.
    - intros l1 w1 e w2 _ (added & Hh & Hset & Hagree) Hbody.
      destruct (loop_body_raise_history l1 w1 w2 e Hbody)
        as [Hh2|[Hh2|(s' & Hh2)]].
      + exists added. now rewrite Hh2.
      + exists (Attempt (round_num l1) (snd (sampled_at l1 w1)) true :: added).
        rewrite Hh2, Hh. split; [reflexivity|]. exact Hagree.
      + exists (Evaluated s' false ::
                Attempt (round_num l1) (snd (sampled_at l1 w1)) true :: added).
        rewrite Hh2, Hh. split; [reflexivity|]. exact Hagree.
    - exists []. repeat split. exact Hfresh. }
  destruct (while_loop fuel l w) as [l' w'|e w'|l' w']; simpl.
  - destruct H as [(added & Hh & _ & Hagree) _]. eauto.
  - exact H.
  - destruct H as [(added & Hh & _ & Hagree) _]. eauto.
Qed.

(** C7, as amended. When the metrics returned by the iterative process
    never carry an entry [num_unique_clients] of their own, then after
    every round that got through, the [num_unique_clients] train metric is
    the number of elements of the union of the client ids sampled for the
    rounds that succeeded so far in this run: a client seen again does not
    count again. *)
Theorem num_unique_clients_counts_union (fuel : nat) (w : World) :
  (forall i s data s' m,
      next i s data = inr (s', m) -> Dict.mem "num_unique_clients" m = false) ->
  exists added,
    history (final_world (run fuel w)) = added ++ history w /\
    counts_agree added.
Proof.
  intros Hprocess.
  destruct (run_unfold fuel w) as (l0 & w0 & _ & _ & _ & Hfresh & Hh0 & _ & Hrun).
  destruct (while_loop_counts fuel l0 w0 Hprocess Hfresh) as (added & Hh & Hagree).
  rewrite Hh0 in Hh. rewrite Hrun.
  destruct (while_loop fuel l0 w0) as [l' w'|e w'|l' w']; simpl in Hh.
  - destruct (wrapup (state l') w') as [s1 w3|e w3] eqn:Hwrap; simpl.
    + apply wrapup_inv in Hwrap as (_ & Hh3 & _).
      exists (Wrote (VDict []) (VDict (test_metrics_at (calls w') (state l')))
                    total_rounds ::
              Evaluated (state l') true :: added).
      rewrite Hh3, Hh. split; [reflexivity | exact Hagree].
    + apply wrapup_raise in Hwrap as (Hh3 & _).
      exists (Evaluated (state l') true :: added).
      rewrite Hh3, Hh. split; [reflexivity | exact Hagree].
  - exists added. split; assumption.
  - exists added. split; assumption.
Qed.

(** ** The final evaluation *)

Lemma while_loop_in_loop_events (fuel : nat) (l l' : locals) (w w' : World) :
  while_loop fuel l w = Returned l' w' ->
  exists in_loop,
    history w' = in_loop ++ history w /\ Forall in_loop_event in_loop.
Proof.
  intros Hend.
  pose (P := fun (l1 : locals) (w1 : World) =>
    exists in_loop, history w1 = in_loop ++ history w /\
      Forall in_loop_event in_loop).
  assert (H : match while_loop fuel l w with
              | Returned l1 w1 => P l1 w1 /\ total_rounds <= round_num l1
              | Running l1 w1 => P l1 w1 /\ round_num l1 < total_rounds
              | Raised _ w1 => True
              end).
  { apply (while_loop_invariant P (fun _ => True)).
    - intros l1 w1 l2 w2 Hlt (in_loop & Hh & Hall) Hbody.
      destruct (loop_body_ok_inv l1 l2 w1 w2 Hbody)
        as [(-> & Hh2 & _)|(s' & m & tm & em & _ & -> & _ & Hh2 & _)].
      + exists (Attempt (round_num l1) (snd (sampled_at l1 w1)) false :: in_loop).
        rewrite Hh2, Hh. split; [reflexivity|]. constructor; [exact I | exact Hall].
      + exists (pass_events l1 w1 tm em s' ++ in_loop).
        rewrite Hh2, Hh, app_assoc. split; [reflexivity|].
        apply Forall_app. split; [now apply in_loop_pass | exact Hall].
    - trivial.
    - exists []. split; [reflexivity | constructor]. }
  rewrite Hend in H. exact (proj1 H).
Qed.

(** ** Checkpoints *)

Lemma rounds_between_snoc (a b : Z) :
  a <= b -> rounds_between a (b + 1) = rounds_between a b ++ [b].
Proof.
  intros Hab. unfold rounds_between.
  replace (Z.to_nat (b + 1 - a)) with (S (Z.to_nat (b - a))) by lia.
  rewrite seq_S, map_app. simpl. do 2 f_equal. lia.
Qed.

Lemma rounds_between_empty (a b : Z) : b <= a -> rounds_between a b = [].
Proof.
  intros Hba. unfold rounds_between.
  now replace (Z.to_nat (b - a)) with 0%nat by lia.
Qed.

(** The checkpoints a pass leaves: one more, for its round, when one is
    due after a round that got through. *)
Lemma pass_saves_when_due (l l' : locals) (w w' : World) (s' : State) (m : dict) :
  attempt_at l w = inr (s', m) ->
  loop_body l w = Ok l' w' ->
  checkpoints w' =
    (if checkpoint_due (round_num l)
     then (round_num l, state l') :: checkpoints w else checkpoints w).
Proof.
  intros Hnext Hbody.
  destruct (loop_body_success l l' w w' s' m Hnext Hbody)
    as (_ & _ & _ & -> & Hcp & _). exact Hcp.
Qed.

Lemma while_loop_checkpoints (fuel : nat) (l l' : locals) (w w' : World) :
  while_loop fuel l w = Returned l' w' ->
  map fst (checkpoints w') =
  rev (List.filter checkpoint_due (rounds_between (round_num l) total_rounds)) ++
  map fst (checkpoints w).
Proof.
  intros Hend.
  pose (P := fun (l1 : locals) (w1 : World) =>
    round_num l <= round_num l1 /\
    (round_num l1 <= total_rounds \/ round_num l1 = round_num l) /\
    map fst (checkpoints w1) =
    rev (List.filter checkpoint_due (rounds_between (round_num l) (round_num l1))) ++
    map fst (checkpoints w)).
  assert (H : match while_loop fuel l w with
              | Returned l1 w1 => P l1 w1 /\ total_rounds <= round_num l1
              | Running l1 w1 => P l1 w1 /\ round_num l1 < total_rounds
              | Raised _ w1 => True
              end).
  { apply (while_loop_invariant P (fun _ => True)).
    - intros l1 w1 l2 w2 Hlt (Hle & Hup & Hcp) Hbody.
      destruct (loop_body_ok_inv l1 l2 w1 w2 Hbody)
        as [(-> & _ & Hcp2)|(s' & m & tm & em & _ & -> & Hcp2 & _)].
      + unfold P. rewrite Hcp2. repeat split; assumption || (left; lia).
      + unfold P. simpl. split; [lia|]. split; [left; lia|].
        rewrite rounds_between_snoc by exact Hle.
        rewrite List.filter_app, rev_app_distr, Hcp2. simpl.
        destruct (checkpoint_due (round_num l1)); simpl; now rewrite Hcp.
    - trivial.
    - split; [lia|]. split; [now right|].
      now rewrite rounds_between_empty by lia. }
  rewrite Hend in H. destruct H as [(Hle & Hup & Hcp) Hdone].
  rewrite Hcp. do 2 f_equal.
  destruct Hup as [Hup|Hup].
  - now replace (round_num l') with total_rounds by lia.
  - rewrite Hup. rewrite !rounds_between_empty by lia. reflexivity.
Qed.

(** C4. A run that returns has saved a checkpoint after exactly those of
    its rounds whose number is divisible by [rounds_per_checkpoint] or is
    [total_rounds - 1], one per such round, in order; with
    [rounds_per_checkpoint = 50] and [total_rounds = 120] on an empty
    store these are the rounds 0, 50, 100 and 119 and no others. *)
Theorem checkpoint_cadence (fuel : nat) (w w' : World) (s : State) :
  run fuel w = Returned s w' ->
  map fst (checkpoints w') =
    rev (List.filter checkpoint_due
                     (rounds_between (resume_round (checkpoints w)) total_rounds)) ++
    map fst (checkpoints w) /\
  (total_rounds = 120 -> rounds_per_checkpoint = 50 -> checkpoints w = [] ->
   map fst (checkpoints w') = [119; 100; 50; 0]).
Proof.
  intros Hret.
  destruct (run_unfold fuel w) as (l0 & w0 & _ & Hround & _ & _ & _ & Hcp0 & Hrun).
  rewrite Hrun in Hret.
  destruct (while_loop fuel l0 w0) as [l' w2|e w2|l' w2] eqn:Hloop;
    try discriminate.
  pose proof (while_loop_checkpoints fuel l0 l' w0 w2 Hloop) as Hcp.
  destruct (wrapup (state l') w2) as [s1 w3|e w3] eqn:Hwrap; [|discriminate].
  injection Hret as <- <-.
  apply wrapup_inv in Hwrap as (_ & _ & Hcp3 & _). rewrite Hcp3.
  rewrite Hround, Hcp0 in Hcp. split; [exact Hcp|].
  intros Htotal Hevery Hempty. rewrite Hcp, Hempty.
  unfold resume_round, checkpoint_due. simpl. rewrite Htotal, Hevery.
  reflexivity.
Qed.

(** ** Running again *)




(** ** More on dictionaries and flattened rows *)

Lemma get_app {A} (k : string) (l1 l2 : list (string * A)) :
  Dict.get k (l1 ++ l2) =
  match Dict.get k l1 with Some v => Some v | None => Dict.get k l2 end.
Proof.
  induction l1 as [|[k0 v0] l1 IH]; simpl; [reflexivity|].
  destruct (String.eqb k k0); [reflexivity | exact IH].
Qed.

Lemma get_none_keys {A} (k : string) (d : list (string * A)) :
  Dict.get k d = None <-> ~ In k (Dict.keys d).
Proof.
  clear summary_scalar metrics_file.
  induction d as [|[k0 v0] d IH]; simpl; [tauto|].
  destruct (String.eqb k k0) eqn:E.
  - apply String.eqb_eq in E. subst k0. split; [discriminate | tauto].
  - apply String.eqb_neq in E. rewrite IH. split; [intros H [?|?]; [congruence | tauto] | tauto].
Qed.

Lemma get_some_in {A} (k : string) (v : A) (d : list (string * A)) :
  Dict.get k d = Some v -> In (k, v) d.
Proof.
  induction d as [|[k0 v0] d IH]; simpl; [discriminate|].
  destruct (String.eqb k k0) eqn:E.
  - apply String.eqb_eq in E. subst k0. intros H; injection H as ->. now left.
  - intros H. right. now apply IH.
Qed.

(** With distinct keys, an entry is what [get] finds. *)
Lemma get_in_nodup {A} (k : string) (v : A) (d : list (string * A)) :
  NoDup (Dict.keys d) -> In (k, v) d -> Dict.get k d = Some v.
Proof.
  clear summary_scalar metrics_file.
  induction d as [|[k0 v0] d IH]; simpl; [tauto|].
  intros Hnd [Heq|Hin].
  - injection Heq as -> ->. now rewrite String.eqb_refl.
  - apply NoDup_cons in Hnd as [Hnotin Hnd].
    destruct (String.eqb k k0) eqn:E; [|now apply IH].
    apply String.eqb_eq in E. subst k0. exfalso. apply Hnotin.
    apply list_elem_of_In. unfold Dict.keys.
    change k with (fst (k, v)). now apply in_map.
Qed.

(** With distinct keys, [get] does not depend on the order of the entries. *)
Lemma get_permutation {A} (k : string) (d d' : list (string * A)) :
  NoDup (Dict.keys d) -> Permutation d d' -> Dict.get k d' = Dict.get k d.
Proof.
  intros Hnd Hperm.
  assert (Hnd' : NoDup (Dict.keys d')).
  { unfold Dict.keys in *.
    assert (Hkeys : Permutation (map fst d) (map fst d'))
      by now apply Permutation_map.
    now rewrite <- Hkeys. }
  destruct (Dict.get k d) as [v|] eqn:Hget.
  - apply get_in_nodup; [exact Hnd'|].
    eapply Permutation_in; [exact Hperm|]. now apply get_some_in.
  - destruct (Dict.get k d') as [v'|] eqn:Hget'; [|reflexivity].
    apply get_some_in in Hget'.
    apply Permutation_sym in Hperm.
    pose proof (Permutation_in _ Hperm Hget') as Hin.
    rewrite (get_in_nodup k v' d Hnd Hin) in Hget. discriminate.
Qed.

Lemma keys_set {A} (k : string) (v : A) (d : list (string * A)) :
  Dict.keys (Dict.set k v d) =
  if Dict.mem k d then Dict.keys d else Dict.keys d ++ [k].
Proof.
  unfold Dict.mem. induction d as [|[k0 v0] d IH]; simpl; [reflexivity|].
  destruct (String.eqb k k0) eqn:E; simpl; [reflexivity|].
  rewrite IH. destruct (Dict.get k d); reflexivity.
Qed.

(** Assignments keep the keys of a dictionary distinct. *)
Lemma keys_set_nodup {A} (k : string) (v : A) (d : list (string * A)) :
  NoDup (Dict.keys d) -> NoDup (Dict.keys (Dict.set k v d)).
Proof.
  intros Hnd. rewrite keys_set. unfold Dict.mem.
  destruct (Dict.get k d) eqn:Hget; [exact Hnd|].
  apply get_none_keys in Hget.
  apply NoDup_app. split; [exact Hnd|]. split; [|apply NoDup_singleton].
  intros x Hx Hk. apply list_elem_of_singleton in Hk. subst x.
  apply Hget. now apply list_elem_of_In.
Qed.

Lemma keys_update_nodup {A} (d other : list (string * A)) :
  NoDup (Dict.keys d) -> NoDup (Dict.keys (Dict.update d other)).
Proof.
  revert d. unfold Dict.update.
  induction other as [|[k v] other IH]; intros d Hnd; simpl; [exact Hnd|].
  apply IH. now apply keys_set_nodup.
Qed.

Lemma keys_update_from {A} (k : string) (d other : list (string * A)) :
  In k (Dict.keys (Dict.update d other)) ->
  In k (Dict.keys d) \/ In k (Dict.keys other).
Proof.
  clear summary_scalar metrics_file.
  revert d. unfold Dict.update.
  induction other as [|[k0 v0] other IH]; intros d; simpl; [tauto|].
  intros Hin. apply IH in Hin as [Hin|Hin]; [|tauto].
  rewrite keys_set in Hin. destruct (Dict.mem k0 d); [tauto|].
  apply in_app_or in Hin as [Hin|[Hin|[]]]; tauto.
Qed.

(** The walk over the items of a dictionary is a [map]. *)
Lemma flatten_dict (d : dict) :
  flatten_with_path (VDict d) =
  concat (map (fun g => prefix_paths (fst g) (snd g))
              (sort_by_key (map (fun kx => (fst kx, flatten_with_path (snd kx))) d))).
Proof.
  simpl. do 3 f_equal.
  induction d as [|[k x] d IH]; simpl; [reflexivity|]. now rewrite IH.
Qed.

Lemma insert_by_key_permutation {A} (k : string) (x : A) (l : list (string * A)) :
  Permutation (insert_by_key k x l) ((k, x) :: l).
Proof.
  induction l as [|[k0 x0] l IH]; simpl; [reflexivity|].
  destruct (String.leb k k0); [reflexivity|].
  rewrite IH. apply perm_swap.
Qed.

(** Sorting by key only reorders. *)
Lemma sort_by_key_permutation {A} (l : list (string * A)) :
  Permutation (sort_by_key l) l.
Proof.
  induction l as [|[k x] l IH]; simpl; [reflexivity|].
  rewrite insert_by_key_permutation. now constructor.
Qed.

(** Every leaf under a dictionary has a path of at least one key. *)
Lemma flatten_dict_paths (d : dict) (p : list string) (leaf : pyval) :
  In (p, leaf) (flatten_with_path (VDict d)) ->
  exists k p', p = k :: p'.
Proof.
  rewrite flatten_dict. intros Hin.
  apply in_concat in Hin as (group & Hgroup & Hin).
  apply in_map_iff in Hgroup as ([k sub] & <- & _).
  unfold prefix_paths in Hin. apply in_map_iff in Hin as ([p' leaf'] & Heq & _).
  injection Heq as <- _. eauto.
Qed.

(** The columns that come from the dictionary under a top-level key start
    with that key and a slash. *)
Lemma joined_group_keys (top : string) (d : dict) (k : string) :
  In k (Dict.keys (map (fun pi => (join_path (fst pi), snd pi))
                       (prefix_paths top (flatten_with_path (VDict d))))) ->
  exists rest, k = (top ++ "/" ++ rest)%string.
Proof.
  unfold Dict.keys, prefix_paths. rewrite !map_map. simpl.
  intros Hin. apply in_map_iff in Hin as ([p leaf] & <- & Hin). simpl.
  apply flatten_dict_paths in Hin as (k0 & p' & ->).
  eexists. reflexivity.
Qed.

Lemma flatten_leaf (x : pyval) :
  is_leaf x = true -> flatten_with_path x = [([], x)].
Proof. destruct x; simpl; intros H; try reflexivity. discriminate. Qed.

Lemma insert_by_key_values {A B} (f : A -> B) (k : string) (x : A)
      (l : list (string * A)) :
  insert_by_key k (f x) (map (fun kx => (fst kx, f (snd kx))) l) =
  map (fun kx => (fst kx, f (snd kx))) (insert_by_key k x l).
Proof.
  induction l as [|[k0 x0] l IH]; simpl; [reflexivity|].
  destruct (String.leb k k0); simpl; [reflexivity|]. now rewrite IH.
Qed.

(** Sorting looks at the keys only. *)
Lemma sort_by_key_values {A B} (f : A -> B) (l : list (string * A)) :
  sort_by_key (map (fun kx => (fst kx, f (snd kx))) l) =
  map (fun kx => (fst kx, f (snd kx))) (sort_by_key l).
Proof.
  induction l as [|[k x] l IH]; simpl; [reflexivity|].
  rewrite IH. apply insert_by_key_values.
Qed.

(** A dictionary of leaves flattens to its own items, sorted by key. *)
Lemma flatten_dict_of_leaves (d : dict) :
  Forall (fun kv => is_leaf (snd kv) = true) d ->
  flatten_with_path (VDict d) =
  map (fun kx => ([fst kx], snd kx)) (sort_by_key d).
Proof.
  intros Hleaves. rewrite flatten_dict.
  replace (map (fun kx => (fst kx, flatten_with_path (snd kx))) d)
    with (map (fun kx : string * pyval => (fst kx, [(@nil string, snd kx)])) d).
  - rewrite (sort_by_key_values (fun x => [(@nil string, x)])).
    induction (sort_by_key d) as [|[k x] l IH]; simpl; [reflexivity|].
    now rewrite IH.
  - apply map_ext_in. intros [k x] Hin. simpl.
    rewrite List.Forall_forall in Hleaves.
    now rewrite (flatten_leaf x (Hleaves _ Hin)).
Qed.

Lemma eqb_append_l (p a b : string) :
  String.eqb (p ++ a) (p ++ b) = String.eqb a b.
Proof.
  induction p as [|c p IH]; [reflexivity|].
  change (String.eqb (String c (p ++ a)) (String c (p ++ b)) = String.eqb a b).
  simpl. now rewrite Ascii.eqb_refl.
Qed.

Lemma get_prefixed {A} (p k : string) (l : list (string * A)) :
  Dict.get (p ++ k)%string (map (fun kx => ((p ++ fst kx)%string, snd kx)) l) =
  Dict.get k l.
Proof.
  induction l as [|[k0 x0] l IH]; simpl; [reflexivity|].
  rewrite eqb_append_l. destruct (String.eqb k k0); [reflexivity | exact IH].
Qed.

(** Looking up [top/k] among the columns that come from a dictionary of
    leaves under [top] finds what the dictionary has under [k]. *)
Lemma get_flat_group (top k : string) (d : dict) :
  NoDup (Dict.keys d) ->
  Forall (fun kv => is_leaf (snd kv) = true) d ->
  Dict.get (top ++ "/" ++ k)%string
           (rev (map (fun pi => (join_path (fst pi), snd pi))
                     (prefix_paths top (flatten_with_path (VDict d))))) =
  Dict.get k d.
Proof.
  intros Hnd Hleaves. rewrite (flatten_dict_of_leaves d Hleaves).
  unfold prefix_paths. rewrite !map_map. simpl.
  rewrite <- map_rev.
  change (fun x : string * pyval => (join_path [top; fst x], snd x))
    with (fun x : string * pyval => (((top ++ "/") ++ fst x)%string, snd x))
    || idtac.
  replace (map (fun x : string * pyval => (join_path [top; fst x], snd x))
               (rev (sort_by_key d)))
    with (map (fun x : string * pyval => (((top ++ "/") ++ fst x)%string, snd x))
              (rev (sort_by_key d))).
  - replace (top ++ "/" ++ k)%string with ((top ++ "/") ++ k)%string.
    + rewrite get_prefixed. apply get_permutation; [exact Hnd|].
      rewrite <- Permutation_rev. symmetry. apply sort_by_key_permutation.
    + clear. induction top as [|c top IH]; [reflexivity|].
      change (String c ((top ++ "/") ++ k) = String c (top ++ "/" ++ k))%string.
      now rewrite IH.
  - apply map_ext. intros [k0 x0]. simpl. f_equal. unfold join_path. simpl.
    clear. induction top as [|c top IH]; [reflexivity|].
    change (String c ((top ++ "/") ++ k0) = String c (top ++ "/" ++ k0))%string.
    now rewrite IH.
Qed.

(** X10. The row written for [train_metrics], [eval_metrics] and round [r]: its
    column names are distinct; each is [round] or starts with [eval/] or
    [train/]; and with no train metrics no column starts with [train/]. *)
Theorem flat_metrics_columns (train_metrics eval_metrics : dict) (r : Z) :
  let row := flatten_metrics (VDict train_metrics) (VDict eval_metrics) (VInt r) in
  NoDup (Dict.keys row) /\
  (forall name, In name (Dict.keys row) -> metrics_column name) /\
  (train_metrics = [] ->
   forall name, In name (Dict.keys row) -> starts_with "train/" name = false).
Proof.
  cbv zeta. rewrite flatten_metrics_layout. unfold Dict.of_pairs.
  split; [apply keys_update_nodup; constructor|].
  assert (Hfrom : forall name,
    In name (Dict.keys (Dict.update []
       (map (fun pi => (join_path (fst pi), snd pi))
            (prefix_paths "eval" (flatten_with_path (VDict eval_metrics))) ++
        [("round", VInt r)] ++
        map (fun pi => (join_path (fst pi), snd pi))
            (prefix_paths "train" (flatten_with_path (VDict train_metrics)))))) ->
    (exists rest, name = ("eval" ++ "/" ++ rest)%string) \/
    name = "round" \/
    (exists rest, name = ("train" ++ "/" ++ rest)%string) /\
    flatten_with_path (VDict train_metrics) <> []).
  { intros name Hin. apply keys_update_from in Hin as [[]|Hin].
    unfold Dict.keys in Hin. rewrite !map_app in Hin.
    apply in_app_or in Hin as [Hin|Hin];
      [left; now apply joined_group_keys in Hin|].
    apply in_app_or in Hin as [[<-|[]]|Hin]; [right; now left|].
    right. right. split; [now apply joined_group_keys in Hin|].
    intros Hempty. rewrite Hempty in Hin. exact Hin. }
  split.
  - intros name Hin. unfold metrics_column.
    destruct (Hfrom name Hin) as [(rest & ->)|[->|[(rest & ->) _]]].
    + right. left. clear. now cbv.
    + now left.
    + right. right. clear. now cbv.
  - intros -> name Hin.
    destruct (Hfrom name Hin) as [(rest & ->)|[->|[_ Hne]]].
    + clear. now cbv.
    + reflexivity.
    + now contradiction Hne.
Qed.

(** X11. For metrics that are dictionaries of leaves with distinct keys, the row
    holds under [train/k] what the train metrics hold under [k], and under
    [eval/k] what the eval metrics hold under [k]. *)
Theorem flat_metrics_lookup (train_metrics eval_metrics : dict) (r : Z) (k : string) :
  NoDup (Dict.keys train_metrics) ->
  Forall (fun kv => is_leaf (snd kv) = true) train_metrics ->
  NoDup (Dict.keys eval_metrics) ->
  Forall (fun kv => is_leaf (snd kv) = true) eval_metrics ->
  Dict.get ("train/" ++ k)%string
           (flatten_metrics (VDict train_metrics) (VDict eval_metrics) (VInt r)) =
    Dict.get k train_metrics /\
  Dict.get ("eval/" ++ k)%string
           (flatten_metrics (VDict train_metrics) (VDict eval_metrics) (VInt r)) =
    Dict.get k eval_metrics.
Proof.
  intros Hnt Hlt Hne Hle. rewrite flatten_metrics_layout. unfold Dict.of_pairs.
  pose proof (get_flat_group "train" k train_metrics Hnt Hlt) as Htrain.
  pose proof (get_flat_group "eval" k eval_metrics Hne Hle) as Heval.
  change ("train" ++ "/" ++ k)%string with ("train/" ++ k)%string in Htrain.
  change ("eval" ++ "/" ++ k)%string with ("eval/" ++ k)%string in Heval.
  assert (Hcross : forall (top key : string) (d : dict),
    (forall rest, (top ++ "/" ++ rest)%string <> key) ->
    Dict.get key (rev (map (fun pi => (join_path (fst pi), snd pi))
                           (prefix_paths top (flatten_with_path (VDict d))))) = None).
  { intros top key d Hother. apply get_none_keys. intros Hin.
    unfold Dict.keys in Hin. rewrite map_rev in Hin. apply in_rev in Hin.
    apply joined_group_keys in Hin as (rest & ->). now apply (Hother rest). }
  rewrite !get_update, !rev_app_distr, <- !app_assoc, !get_app.
  rewrite Htrain, Heval.
  rewrite (Hcross "eval" ("train/" ++ k)%string) by (intros rest; discriminate).
  rewrite (Hcross "train" ("eval/" ++ k)%string) by (intros rest; discriminate).
  split.
  - destruct (Dict.get k train_metrics); reflexivity.
  - destruct (Dict.get k eval_metrics); reflexivity.
Qed.

(** ** The row of the final evaluation *)

Lemma in_set {A} (k : string) (v : A) (d : list (string * A)) :
  In (k, v) (Dict.set k v d).
Proof.
  induction d as [|[k0 v0] d IH]; simpl; [now left|].
  destruct (String.eqb k k0) eqn:E.
  - apply String.eqb_eq in E. subst k0. now left.
  - now right.
Qed.

(** Where the columns of a row come from. *)
Lemma flat_row_keys (train_metrics eval_metrics : dict) (r : Z) (name : string) :
  In name (Dict.keys (flatten_metrics (VDict train_metrics) (VDict eval_metrics)
                                      (VInt r))) ->
  (exists rest, name = ("eval" ++ "/" ++ rest)%string) \/
  name = "round" \/
  (exists rest, name = ("train" ++ "/" ++ rest)%string) /\
  flatten_with_path (VDict train_metrics) <> [].
Proof.
  rewrite flatten_metrics_layout. unfold Dict.of_pairs.
  intros Hin. apply keys_update_from in Hin as [[]|Hin].
  unfold Dict.keys in Hin. rewrite !map_app in Hin.
  apply in_app_or in Hin as [Hin|Hin];
    [left; now apply joined_group_keys in Hin|].
  apply in_app_or in Hin as [[<-|[]]|Hin]; [right; now left|].
  right. right. split; [now apply joined_group_keys in Hin|].
  intros Hempty. rewrite Hempty in Hin. exact Hin.
Qed.

(** Every leaf of the eval metrics has its column. *)
Lemma flat_row_mem_eval (train_metrics eval_metrics : dict) (r : Z)
      (k : string) (v : pyval) :
  In (k, v) eval_metrics ->
  is_leaf v = true ->
  Dict.mem ("eval/" ++ k)%string
           (flatten_metrics (VDict train_metrics) (VDict eval_metrics) (VInt r)) = true.
Proof.
  intros Hin Hleaf. rewrite flatten_metrics_layout. unfold Dict.of_pairs.
  rewrite mem_update. apply orb_true_iff. left.
  rewrite mem_existsb. apply existsb_exists.
  exists (("eval/" ++ k)%string, v). split; [|simpl; apply String.eqb_refl].
  apply in_or_app. left.
  apply in_map_iff. exists (["eval"; k], v). split; [reflexivity|].
  unfold prefix_paths. apply in_map_iff. exists ([k], v). split; [reflexivity|].
  rewrite flatten_dict. apply in_concat.
  exists (prefix_paths k (flatten_with_path v)). split.
  - apply in_map_iff. exists (k, flatten_with_path v). split; [reflexivity|].
    eapply Permutation_in; [symmetry; apply sort_by_key_permutation|].
    apply in_map_iff. exists (k, v). split; [reflexivity | exact Hin].
  - rewrite (flatten_leaf v Hleaf). simpl. now left.
Qed.

(** With distinct keys and leaves for values, the eval metrics are found
    in the row under their names. *)
Lemma flat_row_get_eval (train_metrics eval_metrics : dict) (r : Z) (k : string) :
  NoDup (Dict.keys eval_metrics) ->
  Forall (fun kv => is_leaf (snd kv) = true) eval_metrics ->
  Dict.get ("eval/" ++ k)%string
           (flatten_metrics (VDict train_metrics) (VDict eval_metrics) (VInt r)) =
  Dict.get k eval_metrics.
Proof.
  intros Hne Hle. rewrite flatten_metrics_layout. unfold Dict.of_pairs.
  pose proof (get_flat_group "eval" k eval_metrics Hne Hle) as Heval.
  change ("eval" ++ "/" ++ k)%string with ("eval/" ++ k)%string in Heval.
  assert (Htrain :
    Dict.get ("eval/" ++ k)%string
      (rev (map (fun pi => (join_path (fst pi), snd pi))
                (prefix_paths "train" (flatten_with_path (VDict train_metrics))))) =
    None).
  { apply get_none_keys. intros Hin.
    unfold Dict.keys in Hin. rewrite map_rev in Hin. apply in_rev in Hin.
    apply joined_group_keys in Hin as (rest & Heq). discriminate Heq. }
  rewrite !get_update, !rev_app_distr, <- !app_assoc, !get_app.
  rewrite Htrain, Heval. simpl.
  destruct (Dict.get k eval_metrics); reflexivity.
Qed.

(** C6. When [run] returns, the last things it did were to call the
    evaluation function on the returned state with the test dataset flag
    set, and to write one metrics record with round number
    [total_rounds], no train metrics and the metrics of that evaluation;
    it is the last row of the table. The row has no column of train
    metrics: its columns are [round] and columns under [eval/], among them
    one for the time of the evaluation and one for every leaf of the
    metrics the evaluation returned, with their values when the keys are
    distinct. Every record written before it in the run has a round number
    below [total_rounds], and every earlier evaluation had the flag
    unset. *)
Theorem final_record_keyed_by_total_rounds
    (fuel : nat) (w w' : World) (s : State) :
  run fuel w = Returned s w' ->
  exists test_metrics in_loop rows final_row,
    history w' =
      Wrote (VDict []) (VDict test_metrics) total_rounds ::
      Evaluated s true :: in_loop ++ history w /\
    (exists i elapsed,
       test_metrics =
         Dict.set "evaluate_secs" (VFloat elapsed) (evaluate_fn i s true)) /\
    Forall in_loop_event in_loop /\
    final_row = flatten_metrics (VDict []) (VDict test_metrics) (VInt total_rounds) /\
    metrics_csv w' = Some (rows ++ [final_row]) /\
    round_of final_row = Some total_rounds /\
    (forall name, In name (Dict.keys final_row) ->
       starts_with "train/" name = false /\
       (name = "round" \/ starts_with "eval/" name = true)) /\
    Dict.mem "eval/evaluate_secs" final_row = true /\
    (forall k v, In (k, v) test_metrics -> is_leaf v = true ->
       Dict.mem ("eval/" ++ k)%string final_row = true) /\
    (NoDup (Dict.keys test_metrics) ->
     Forall (fun kv => is_leaf (snd kv) = true) test_metrics ->
     forall k, Dict.get ("eval/" ++ k)%string final_row = Dict.get k test_metrics).
Proof.
  intros Hret.
  destruct (run_unfold fuel w) as (l0 & w0 & _ & _ & _ & _ & Hh0 & _ & Hrun).
  rewrite Hrun in Hret.
  destruct (while_loop fuel l0 w0) as [l' w2|e w2|l' w2] eqn:Hloop;
    try discriminate.
  destruct (while_loop_in_loop_events fuel l0 l' w0 w2 Hloop)
    as (in_loop & Hh & Hall).
  destruct (wrapup (state l') w2) as [s1 w3|e w3] eqn:Hwrap; [|discriminate].
  injection Hret as <- <-.
  apply wrapup_inv in Hwrap as (-> & Hh3 & _ & _ & Hcsv3 & _).
  exists (test_metrics_at (calls w2) (state l')), in_loop.
  eexists. exists (final_row_at (calls w2) (state l')).
  rewrite Hh3, Hh, Hh0. split; [reflexivity|].
  split; [unfold test_metrics_at, secs; eexists; eexists; reflexivity|].
  split; [exact Hall|]. split; [reflexivity|]. split; [exact Hcsv3|].
  unfold final_row_at.
  split; [apply round_of_flatten_metrics|].
  split; [|split; [|split]].
  - intros name Hin.
    destruct (flat_row_keys _ _ _ _ Hin) as [(rest & ->)|[->|[_ Hne]]].
    + split; [clear; now cbv | right; clear; now cbv].
    + split; [reflexivity | now left].
    + now contradiction Hne.
  - apply (flat_row_mem_eval [] _ total_rounds "evaluate_secs"
             (secs (time_time (2 + calls w2)%nat) (time_time (calls w2))));
      [apply in_set | reflexivity].
  - intros k v. apply flat_row_mem_eval.
  - intros Hnd Hleaves k. now apply flat_row_get_eval.
Qed.

(** ** More on the metrics writer *)



(** X12. [_setup_metrics] with hyperparameters writes them to [hparams.csv]
    together with the place of the metrics file, under [metrics_file], in the
    place of any hyperparameter of that name; without hyperparameters it
    writes nothing. It leaves the metrics table, the summary and the
    checkpoints alone. *)
Theorem setup_metrics_records_metrics_file (hparam_dict : dict) (w : World) :
  exists w' row,
    _setup_metrics (Some hparam_dict) w = Ok tt w' /\
    hparams_csv w' = Some row /\
    Dict.get "metrics_file" row = Some (VStr metrics_file) /\
    (forall k, k <> "metrics_file" -> Dict.get k row = Dict.get k hparam_dict) /\
    (NoDup (Dict.keys hparam_dict) -> NoDup (Dict.keys row)) /\
    metrics_csv w' = metrics_csv w /\
    summary w' = summary w /\
    checkpoints w' = checkpoints w /\
    _setup_metrics None w = Ok tt w.
Proof.
  eexists. eexists. split; [reflexivity|]. split; [reflexivity|].
  split; [now rewrite get_set|].
  split; [|split; [apply keys_set_nodup | repeat split]].
  intros k Hk. rewrite get_set. apply String.eqb_neq in Hk. now rewrite Hk.
Qed.

(** ** Metrics that are numbers *)







(** ** More on one pass of the loop *)

(** What a pass that got through left in the files: the train metrics are
    the loop's own, then the metrics of the process, less the popped key,
    then the time of the checkpoint if one was saved; the row and the scalar
    events are written when the evaluation is due. *)
Lemma loop_body_success_world (l l' : locals) (w w' : World) (s' : State) (m : dict) :
  attempt_at l w = inr (s', m) ->
  loop_body l w = Ok l' w' ->
  exists (a b c : Q) (em : dict),
    let clients := unique_clients l ∪ list_to_set (snd (sampled_at l w)) in
    let merged :=
      Dict.remove "keras_training_time_client_sum_sec"
                  (Dict.update (own_metrics (VFloat a) (VFloat b) (VFloat c) clients) m) in
    let tm :=
      if checkpoint_due (round_num l)
      then Dict.set "save_checkpoint_secs"
                    (secs (time_time (8 + calls w)%nat) (time_time (7 + calls w)%nat))
                    merged
      else merged in
    let row := flatten_metrics (VDict tm) (VDict em) (VInt (round_num l)) in
    history w' = pass_events l w tm em s' ++ history w /\
    metrics_csv w' =
      (if eval_due (round_num l)
       then Some match metrics_csv w with
                 | Some rows => py_slice_to (round_num l) rows ++ [row]
                 | None => [row]
                 end
       else metrics_csv w) /\
    summary w' =
      summary w ++
      (if eval_due (round_num l)
       then map (fun nv => (fst nv, snd nv, round_num l)) row
       else []) /\
    hparams_csv w' = hparams_csv w.
Proof.
  unfold attempt_at, sampled_at, pass_events, checkpoint_due, eval_due, own_metrics.
  intros Hnext.
  unfold loop_body, bind, time, call_client_datasets_fn, call_next.
  remember _write_metrics as wm eqn:Hwm. simpl.
  rewrite Hnext. simpl. unfold pop. rewrite mem_update.
  rewrite orb_false_r.
  destruct (Dict.mem "keras_training_time_client_sum_sec" m) eqn:Hkey;
    [|discriminate]. simpl.
  destruct (round_num l + 1 =? 0); [discriminate|]. simpl.
  unfold py_mod.
  destruct (rounds_per_checkpoint =? 0) eqn:Hcp; [discriminate|]. simpl.
  destruct (rounds_per_eval =? 0) eqn:Hev.
  { destruct ((round_num l mod rounds_per_checkpoint =? 0)
              || (round_num l =? total_rounds - 1)); discriminate. }
  destruct ((round_num l mod rounds_per_checkpoint =? 0)
            || (round_num l =? total_rounds - 1));
    simpl; destruct (round_num l mod rounds_per_eval =? 0); simpl;
    try (writer_cases wm Hwm; [|discriminate]);
    intros H; injection H as <- <-; simpl;
    unfold secs;
    eexists; eexists; eexists;
    (eexists; try exact (@nil (string * pyval)));
    (split; [reflexivity|]); (split; [reflexivity|]);
    (split; [rewrite ?app_nil_r; reflexivity | reflexivity]).
Qed.

(** A pass that raises leaves the table, the hyperparameters and the
    executor as they were; it may have saved the checkpoint of its round,
    and when it was its writer that raised, scalar events of its round may
    have reached the summary. *)
Lemma loop_body_raise_world (l : locals) (w w' : World) (e : exn) :
  loop_body l w = Raise e w' ->
  executor_builds w' = executor_builds w /\
  (exists logged, summary w' = summary w ++ logged /\
                  Forall (fun ev => snd ev = round_num l) logged) /\
  metrics_csv w' = metrics_csv w /\
  hparams_csv w' = hparams_csv w /\
  (checkpoints w' = checkpoints w \/
   exists s', checkpoints w' = (round_num l, s') :: checkpoints w).
Proof.
  assert (Hsame :
    exists logged, summary w = summary w ++ logged /\
                   Forall (fun ev : string * pyval * Z => snd ev = round_num l) logged).
  { exists []. rewrite app_nil_r. split; [reflexivity | constructor]. }
  unfold loop_body, bind, time, call_client_datasets_fn, call_next.
  remember _write_metrics as wm eqn:Hwm. simpl.
  destruct (next _ _ _) as [e0|[s' m]]; simpl.
  - destruct (caught_by_retry e0); [discriminate|].
    unfold raise. intros H; injection H as <- <-. simpl.
    split; [reflexivity|]. split; [exact Hsame|]. auto.
  - unfold pop. destruct (Dict.mem _ _); simpl;
      [|intros H; injection H as <- <-; simpl;
        split; [reflexivity|]; split; [exact Hsame|]; auto].
    destruct (round_num l + 1 =? 0); simpl;
      [intros H; injection H as <- <-; simpl;
       split; [reflexivity|]; split; [exact Hsame|]; auto|].
    unfold py_mod.
    destruct (rounds_per_checkpoint =? 0); simpl;
      [intros H; injection H as <- <-; simpl;
       split; [reflexivity|]; split; [exact Hsame|]; auto|].
    destruct ((round_num l mod rounds_per_checkpoint =? 0)
              || (round_num l =? total_rounds - 1)); simpl;
      (destruct (rounds_per_eval =? 0); simpl;
       [intros H; injection H as <- <-; simpl;
        split; [reflexivity|]; split; [exact Hsame|]; eauto 6|]);
      (destruct (round_num l mod rounds_per_eval =? 0); simpl; [|discriminate]);
      (writer_cases wm Hwm; [discriminate|]);
      subst wm;
      match goal with
      | Hw : _write_metrics _ _ _ _ = Raise _ _ |- _ =>
          apply write_metrics_raise in Hw; simpl in Hw;
          destruct Hw as (_ & Hcsv & Hhp & Hcp & Hb & _ & Hs & _)
      end;
      intros H; injection H as <- <-;
      (split; [exact Hb|]); (split; [exact Hs|]);
      (split; [exact Hcsv|]); (split; [exact Hhp|]);
      rewrite Hcp; eauto.
Qed.



Lemma get_rev_nodup {A} (k : string) (d : list (string * A)) :
  NoDup (Dict.keys d) -> Dict.get k (rev d) = Dict.get k d.
Proof. intros Hnd. apply get_permutation; [exact Hnd | apply Permutation_rev]. Qed.

Lemma mem_set {A} (k k' : string) (v : A) (d : list (string * A)) :
  Dict.mem k (Dict.set k' v d) = String.eqb k k' || Dict.mem k d.
Proof. unfold Dict.mem. rewrite get_set. now destruct (String.eqb k k'). Qed.

Lemma mem_remove_other {A} (k k' : string) (d : list (string * A)) :
  k <> k' -> Dict.mem k (Dict.remove k' d) = Dict.mem k d.
Proof. intros Hne. unfold Dict.mem. now rewrite get_remove_other. Qed.

(** X13. The train metrics of a round that got through: every metric of the
    process other than the popped key and [save_checkpoint_secs] is there
    with the value the process gave it, also in the place of a metric of the
    loop with the same name; the four metrics of the loop are there; and
    when a checkpoint was saved, [save_checkpoint_secs] is the time between
    the two readings of the clock that the loop takes around the save, the
    eighth and the ninth outside call of the pass, whatever the process
    reported under that name; otherwise it is what the process reported. *)
Theorem process_metrics_reach_train_metrics
    (l l' : locals) (w w' : World) (s' : State) (m : dict) :
  attempt_at l w = inr (s', m) ->
  loop_body l w = Ok l' w' ->
  NoDup (Dict.keys m) ->
  exists train_metrics eval_metrics,
    history w' = pass_events l w train_metrics eval_metrics s' ++ history w /\
    (forall k,
        k <> "keras_training_time_client_sum_sec" ->
        k <> "save_checkpoint_secs" ->
        Dict.mem k m = true ->
        Dict.get k train_metrics = Dict.get k m) /\
    Dict.mem "prepare_datasets_secs" train_metrics = true /\
    Dict.mem "training_secs" train_metrics = true /\
    Dict.mem "model_delta_l2_norm" train_metrics = true /\
    Dict.mem "num_unique_clients" train_metrics = true /\
    (checkpoint_due (round_num l) = true ->
     Dict.get "save_checkpoint_secs" train_metrics =
       Some (secs (time_time (8 + calls w)%nat) (time_time (7 + calls w)%nat))) /\
    (checkpoint_due (round_num l) = false ->
     Dict.get "save_checkpoint_secs" train_metrics = Dict.get "save_checkpoint_secs" m).
Proof.
  intros Hnext Hbody Hnd.
  destruct (loop_body_success_world l l' w w' s' m Hnext Hbody)
    as (a & b & c & em & Hh & _). cbv zeta in Hh.
  set (own := own_metrics (VFloat a) (VFloat b) (VFloat c)
                (unique_clients l ∪ list_to_set (snd (sampled_at l w)))) in *.
  set (merged := Dict.remove "keras_training_time_client_sum_sec"
                             (Dict.update own m)) in *.
  assert (Hmerged : forall k,
    k <> "keras_training_time_client_sum_sec" ->
    Dict.get k merged =
    match Dict.get k m with Some v => Some v | None => Dict.get k own end).
  { intros k Hk. unfold merged. rewrite get_remove_other by exact Hk.
    rewrite get_update. now rewrite get_rev_nodup by exact Hnd. }
  assert (Hown : forall k,
    k <> "keras_training_time_client_sum_sec" ->
    Dict.mem k own = true -> Dict.mem k merged = true).
  { intros k Hk Hin. unfold merged. rewrite mem_remove_other by exact Hk.
    rewrite mem_update, Hin. apply orb_true_r. }
  eexists. exists em. split; [exact Hh|].
  destruct (checkpoint_due (round_num l)).
  - split; [|repeat split].
    + intros k Hk Hsave Hin. rewrite get_set.
      apply String.eqb_neq in Hsave. rewrite Hsave. rewrite Hmerged by exact Hk.
      unfold Dict.mem in Hin. now destruct (Dict.get k m).
    + rewrite mem_set. simpl. now apply Hown.
    + rewrite mem_set. simpl. now apply Hown.
    + rewrite mem_set. simpl. now apply Hown.
    + rewrite mem_set. simpl. now apply Hown.
    + intros _. now rewrite get_set.
    + discriminate.
  - split; [|repeat split].
    + intros k Hk Hsave Hin. rewrite Hmerged by exact Hk.
      unfold Dict.mem in Hin. now destruct (Dict.get k m).
    + now apply Hown.
    + now apply Hown.
    + now apply Hown.
    + now apply Hown.
    + discriminate.
    + intros _. rewrite Hmerged by discriminate.
      now destruct (Dict.get "save_checkpoint_secs" m).
Qed.

(** ** Faults that are not caught *)

(** X1. When the round-compute call raises anything but the three faults of the
    handler, that exception ends the loop in this very pass: the executor is
    not rebuilt, nothing is saved, written or recorded. *)
Theorem other_faults_end_the_run (fuel : nat) (l : locals) (w : World) (e : exn) :
  round_num l < total_rounds ->
  attempt_at l w = inl e ->
  caught_by_retry e = false ->
  exists w',
    while_loop (S fuel) l w = Raised e w' /\
    executor_builds w' = executor_builds w /\
    checkpoints w' = checkpoints w /\
    metrics_csv w' = metrics_csv w /\
    summary w' = summary w /\
    history w' = history w.
Proof.
  intros Hlt Hnext Hcaught. apply Z.ltb_lt in Hlt.
  destruct (loop_body_fatal l w e Hnext Hcaught)
    as (w' & Hbody & Hcp & Hcsv & Hh & Hb & Hs).
  exists w'. simpl. rewrite Hlt, Hbody. repeat split; assumption.
Qed.

(** ** Running to the end *)



(** ** What a run leaves behind *)

Lemma history_counts_pass (l : locals) (w : World) (tm em : dict) (s' : State)
      (h : list event) :
  successful_rounds (pass_events l w tm em s' ++ h) =
    round_num l :: successful_rounds h /\
  wrote_rounds (pass_events l w tm em s' ++ h) =
    (if eval_due (round_num l) then [round_num l] else []) ++ wrote_rounds h /\
  failed_attempts (pass_events l w tm em s' ++ h) = failed_attempts h.
Proof.
  unfold pass_events, eval_due.
  destruct (round_num l mod rounds_per_eval =? 0); repeat split.
Qed.

(** A loop that returned has got through each round from the one it
    started at up to [total_rounds - 1] once, in order, and has written a
    record for those of them that were due for evaluation. *)
Lemma while_loop_rounds (fuel : nat) (l l' : locals) (w w' : World) :
  while_loop fuel l w = Returned l' w' ->
  exists added,
    history w' = added ++ history w /\
    successful_rounds added = rev (rounds_between (round_num l) total_rounds) /\
    wrote_rounds added =
      rev (List.filter eval_due (rounds_between (round_num l) total_rounds)).
Proof.
  intros Hend.
  pose (P := fun (l1 : locals) (w1 : World) =>
    round_num l <= round_num l1 /\
    (round_num l1 <= total_rounds \/ round_num l1 = round_num l) /\
    exists added,
      history w1 = added ++ history w /\
      successful_rounds added = rev (rounds_between (round_num l) (round_num l1)) /\
      wrote_rounds added =
        rev (List.filter eval_due (rounds_between (round_num l) (round_num l1)))).
  assert (H : match while_loop fuel l w with
              | Returned l1 w1 => P l1 w1 /\ total_rounds <= round_num l1
              | Running l1 w1 => P l1 w1 /\ round_num l1 < total_rounds
              | Raised _ w1 => True
              end).
  { apply (while_loop_invariant P (fun _ => True)).
    - intros l1 w1 l2 w2 Hlt (Hle & Hup & added & Hh & Hok & Hwrote) Hbody.
      destruct (loop_body_ok_inv l1 l2 w1 w2 Hbody)
        as [(-> & Hh2 & _)|(s' & m & tm & em & _ & -> & _ & Hh2 & _)]; unfold P.
      + split; [exact Hle|]. split; [left; lia|].
        exists (Attempt (round_num l1) (snd (sampled_at l1 w1)) false :: added).
        rewrite Hh2, Hh. repeat split; assumption.
      + simpl. split; [lia|]. split; [left; lia|].
        exists (pass_events l1 w1 tm em s' ++ added).
        rewrite Hh2, Hh, app_assoc. split; [reflexivity|].
        destruct (history_counts_pass l1 w1 tm em s' added) as (-> & -> & _).
        rewrite rounds_between_snoc by exact Hle.
        rewrite List.filter_app, !rev_app_distr, Hok, Hwrote. simpl.
        split; [reflexivity|]. now destruct (eval_due (round_num l1)).
    - trivial.
    - split; [lia|]. split; [now right|]. exists [].
      rewrite rounds_between_empty by lia. repeat split. }
  rewrite Hend in H. destruct H as [(Hle & Hup & added & Hh & Hok & Hwrote) Hdone].
  exists added. split; [exact Hh|].
  assert (Hsame : rounds_between (round_num l) (round_num l') =
                  rounds_between (round_num l) total_rounds).
  { destruct Hup as [Hup|Hup].
    - now replace (round_num l') with total_rounds by lia.
    - rewrite Hup. now rewrite !rounds_between_empty by lia. }
  rewrite <- Hsame. split; assumption.
Qed.

(** X2. A run that returns has got through every round from the one it resumed
    at up to [total_rounds - 1] exactly once and in order, however many
    attempts failed in between: no round is skipped and none is trained
    twice. *)
Theorem every_round_trained_once (fuel : nat) (w w' : World) (s : State) :
  run fuel w = Returned s w' ->
  exists added,
    history w' = added ++ history w /\
    successful_rounds added =
      rev (rounds_between (resume_round (checkpoints w)) total_rounds).
Proof.
  intros Hret.
  destruct (run_unfold fuel w) as (l0 & w0 & _ & Hround & _ & _ & Hh0 & _ & Hrun).
  rewrite Hrun in Hret.
  destruct (while_loop fuel l0 w0) as [l' w2|e w2|l' w2] eqn:Hloop; try discriminate.
  destruct (while_loop_rounds fuel l0 l' w0 w2 Hloop) as (added & Hh & Hok & _).
  destruct (wrapup (state l') w2) as [s1 w3|e3 w3] eqn:Hwrap; [|discriminate].
  injection Hret as <- <-.
  apply wrapup_inv in Hwrap as (_ & Hh3 & _).
  exists (Wrote (VDict []) (VDict (test_metrics_at (calls w2) (state l')))
                total_rounds ::
          Evaluated (state l') true :: added).
  rewrite Hh3, Hh, Hh0. split; [reflexivity|]. simpl. now rewrite Hok, Hround.
Qed.

(** X3. A run that returns has written one metrics record for each of its
    rounds whose number is divisible by [rounds_per_eval], in order, and
    then the record of the test evaluation under [total_rounds]; a round
    that was retried still has one record. *)
Theorem metrics_written_when_due (fuel : nat) (w w' : World) (s : State) :
  run fuel w = Returned s w' ->
  exists added,
    history w' = added ++ history w /\
    wrote_rounds added =
      total_rounds ::
      rev (List.filter eval_due
                       (rounds_between (resume_round (checkpoints w)) total_rounds)).
Proof.
  intros Hret.
  destruct (run_unfold fuel w) as (l0 & w0 & _ & Hround & _ & _ & Hh0 & _ & Hrun).
  rewrite Hrun in Hret.
  destruct (while_loop fuel l0 w0) as [l' w2|e w2|l' w2] eqn:Hloop; try discriminate.
  destruct (while_loop_rounds fuel l0 l' w0 w2 Hloop) as (added & Hh & _ & Hwrote).
  destruct (wrapup (state l') w2) as [s1 w3|e3 w3] eqn:Hwrap; [|discriminate].
  injection Hret as <- <-.
  apply wrapup_inv in Hwrap as (_ & Hh3 & _).
  exists (Wrote (VDict []) (VDict (test_metrics_at (calls w2) (state l')))
                total_rounds ::
          Evaluated (state l') true :: added).
  rewrite Hh3, Hh, Hh0. split; [reflexivity|]. simpl. now rewrite Hwrote, Hround.
Qed.

(** X4. However a run ends, the default executor has been rebuilt once for each
    attempt that ended in a caught fault, and not otherwise. *)
Theorem executor_rebuilt_once_per_fault (fuel : nat) (w : World) :
  exists added,
    history (final_world (run fuel w)) = added ++ history w /\
    executor_builds (final_world (run fuel w)) =
      (executor_builds w + failed_attempts added)%nat.
Proof.
  destruct (run_unfold fuel w) as (l0 & w0 & Hstart & _ & _ & _ & Hh0 & _ & Hrun).
  assert (Hb0 : executor_builds w0 = executor_builds w).
  { rewrite startup_ok in Hstart. now injection Hstart as _ <-. }
  pose (P := fun (l1 : locals) (w1 : World) =>
    exists added, history w1 = added ++ history w /\
      executor_builds w1 = (executor_builds w + failed_attempts added)%nat).
  assert (H : match while_loop fuel l0 w0 with
              | Returned l1 w1 => P l1 w1 /\ total_rounds <= round_num l1
              | Running l1 w1 => P l1 w1 /\ round_num l1 < total_rounds
              | Raised _ w1 => P l0 w1
              end).
  { apply (while_loop_invariant P (P l0)).
    - intros l1 w1 l2 w2 _ (added & Hh & Hb) Hbody.
      destruct (loop_body_ok_cases l1 l2 w1 w2 Hbody)
        as [(e & Hnext & Hc)|(s' & m & Hnext)].
      + rewrite (loop_body_retry l1 w1 e Hnext Hc) in Hbody.
        injection Hbody as <- <-.
        exists (Attempt (round_num l1) (snd (sampled_at l1 w1)) false :: added).
        simpl. rewrite Hh, Hb. split; [reflexivity | lia].
      + destruct (loop_body_success l1 l2 w1 w2 s' m Hnext Hbody)
          as (_ & _ & _ & _ & _ & Hb2 & tm & em & Hh2 & _).
        exists (pass_events l1 w1 tm em s' ++ added).
        rewrite Hh2, Hh, app_assoc, Hb2, Hb. split; [reflexivity|].
        now destruct (history_counts_pass l1 w1 tm em s' added) as (_ & _ & ->).
    - intros l1 w1 e w2 _ (added & Hh & Hb) Hbody.
      destruct (loop_body_raise_world l1 w1 w2 e Hbody) as (Hb2 & _).
      destruct (loop_body_raise_history l1 w1 w2 e Hbody)
        as [Hh2|[Hh2|(s' & Hh2)]].
      + exists added. now rewrite Hh2, Hb2.
      + exists (Attempt (round_num l1) (snd (sampled_at l1 w1)) true :: added).
        rewrite Hh2, Hh, Hb2, Hb. split; reflexivity.
      + exists (Evaluated s' false ::
                Attempt (round_num l1) (snd (sampled_at l1 w1)) true :: added).
        rewrite Hh2, Hh, Hb2, Hb. split; reflexivity.
    - exists []. rewrite Hh0, Hb0. split; [reflexivity | simpl; lia]. }
  rewrite Hrun. destruct (while_loop fuel l0 w0) as [l' w2|e w2|l' w2].
  - destruct H as [(added & Hh & Hb) _].
    destruct (wrapup (state l') w2) as [s1 w3|e3 w3] eqn:Hwrap; simpl.
    + apply wrapup_inv in Hwrap as (_ & Hh3 & _ & Hb3 & _).
      exists (Wrote (VDict []) (VDict (test_metrics_at (calls w2) (state l')))
                    total_rounds ::
              Evaluated (state l') true :: added).
      rewrite Hh3, Hb3, Hh, Hb. split; reflexivity.
    + apply wrapup_raise in Hwrap as (Hh3 & _ & Hb3 & _).
      exists (Evaluated (state l') true :: added).
      rewrite Hh3, Hb3, Hh, Hb. split; reflexivity.
  - exact H.
  - exact (proj1 H).
Qed.

(** X5. However a run ends, the checkpoints it has saved are new entries of the
    store, each for a round number above that of every checkpoint it found
    at startup and no two for the same round: a run never saves over a
    checkpoint. *)
Theorem checkpoints_never_saved_over (fuel : nat) (w : World) :
  exists saved,
    checkpoints (final_world (run fuel w)) = saved ++ checkpoints w /\
    NoDup (map fst saved) /\
    forall r c, r ∈ map fst saved -> c ∈ checkpoints w -> fst c < r.
Proof.
  destruct (run_unfold fuel w) as (l0 & w0 & _ & Hround & _ & _ & _ & Hcp0 & Hrun).
  pose (R := fun (w1 : World) =>
    exists saved, checkpoints w1 = saved ++ checkpoints w /\
      NoDup (map fst saved) /\
      Forall (fun r => resume_round (checkpoints w) <= r) (map fst saved)).
  pose (P := fun (l1 : locals) (w1 : World) =>
    resume_round (checkpoints w) <= round_num l1 /\
    exists saved, checkpoints w1 = saved ++ checkpoints w /\
      NoDup (map fst saved) /\
      Forall (fun r => resume_round (checkpoints w) <= r < round_num l1)
             (map fst saved)).
  assert (Hweak : forall l1 w1, P l1 w1 -> R w1).
  { intros l1 w1 (_ & saved & Hcp & Hnd & Hall). exists saved.
    split; [exact Hcp|]. split; [exact Hnd|].
    eapply Forall_impl; [exact Hall|]. simpl. intros; lia. }
  assert (Hsave : forall l1 w1 w2 (s' : State),
    P l1 w1 -> checkpoints w2 = (round_num l1, s') :: checkpoints w1 ->
    P (mkLocals s' (round_num l1 + 1) ∅) w2).
  { intros l1 w1 w2 s' (Hle & saved & Hcp & Hnd & Hall) Hcp2.
    split; [simpl; lia|]. exists ((round_num l1, s') :: saved).
    rewrite Hcp2, Hcp. split; [reflexivity|]. simpl. split.
    - apply NoDup_cons. split; [|exact Hnd].
      intros Hin. rewrite Forall_forall in Hall. specialize (Hall _ Hin). lia.
    - constructor; [lia|].
      eapply Forall_impl; [exact Hall|]. simpl. intros; lia. }
  assert (H : match while_loop fuel l0 w0 with
              | Returned l1 w1 => P l1 w1 /\ total_rounds <= round_num l1
              | Running l1 w1 => P l1 w1 /\ round_num l1 < total_rounds
              | Raised _ w1 => R w1
              end).
  { apply (while_loop_invariant P R).
    - intros l1 w1 l2 w2 _ HP Hbody.
      destruct (loop_body_ok_inv l1 l2 w1 w2 Hbody)
        as [(-> & _ & Hcp2)|(s' & m & tm & em & _ & -> & Hcp2 & _)].
      + destruct HP as (Hle & saved & Hcp & Hrest).
        split; [exact Hle|]. exists saved. now rewrite Hcp2.
      + destruct (checkpoint_due (round_num l1)).
        * destruct (Hsave l1 w1 w2 s' HP Hcp2) as (Hle & Hrest).
          split; [exact Hle | exact Hrest].
        * destruct HP as (Hle & saved & Hcp & Hnd & Hall).
          split; [simpl; lia|]. exists saved. rewrite Hcp2.
          split; [exact Hcp|]. split; [exact Hnd|].
          eapply Forall_impl; [exact Hall|]. simpl. intros; lia.
    - intros l1 w1 e w2 _ HP Hbody.
      destruct (loop_body_raise_world l1 w1 w2 e Hbody)
        as (_ & _ & _ & _ & [Hcp2|(s' & Hcp2)]).
      + destruct (Hweak l1 w1 HP) as (saved & Hcp & Hrest).
        exists saved. now rewrite Hcp2.
      + exact (Hweak _ _ (Hsave l1 w1 w2 s' HP Hcp2)).
    - split; [lia|]. exists []. rewrite Hcp0. repeat split; constructor. }
  assert (Hend : R (final_world (run fuel w))).
  { rewrite Hrun. destruct (while_loop fuel l0 w0) as [l' w2|e w2|l' w2].
    - destruct (Hweak _ _ (proj1 H)) as (saved & Hcp & Hrest).
      exists saved. split; [|exact Hrest]. rewrite <- Hcp.
      destruct (wrapup (state l') w2) as [s1 w3|e3 w3] eqn:Hwrap; simpl.
      + now apply wrapup_inv in Hwrap as (_ & _ & Hcp3 & _).
      + now apply wrapup_raise in Hwrap as (_ & Hcp3 & _).
    - exact H.
    - exact (Hweak _ _ (proj1 H)). }
  destruct Hend as (saved & Hcp & Hnd & Hall).
  exists saved. split; [exact Hcp|]. split; [exact Hnd|].
  intros r c Hr Hc. rewrite Forall_forall in Hall. specialize (Hall r Hr).
  pose proof (resume_round_above _ c Hc). lia.
Qed.

(** ** The table and the summary over a run *)

(** A write for round [r] into a table with a row for each of the rounds
    [0, ..., n-1], [n >= r], or into no table at round 0, leaves a row for
    each of the rounds [0, ..., r]. *)
Lemma dense_table_after_write (table : option (list dict)) (row : dict) (r : Z) :
  0 <= r ->
  round_of row = Some r ->
  match table with
  | None => r = 0
  | Some rows => dense_table rows /\ r <= Z.of_nat (length rows)
  end ->
  let rows' := match table with
               | Some rows => py_slice_to r rows ++ [row]
               | None => [row]
               end in
  dense_table rows' /\ Z.of_nat (length rows') = r + 1.
Proof.
  intros Hr Hrow Htable. cbv zeta. unfold dense_table in *.
  destruct table as [rows|].
  - destruct Htable as [Hdense Hlen].
    unfold py_slice_to. destruct (r <? 0) eqn:Hneg; [apply Z.ltb_lt in Hneg; lia|].
    assert (Hkept : length (firstn (Z.to_nat r) rows) = Z.to_nat r)
      by (rewrite length_firstn; lia).
    rewrite length_app, Hkept. simpl. split; [|lia].
    rewrite map_app, <- firstn_map, Hdense. unfold rounds_upto.
    rewrite firstn_map, take_seq, Nat.min_l by lia.
    replace (Z.to_nat r + 1)%nat with (S (Z.to_nat r)) by lia.
    rewrite seq_S, map_app. simpl. rewrite Hrow. do 3 f_equal. lia.
  - subst r. simpl. split; [|reflexivity]. now rewrite Hrow.
Qed.

(** The table after the wrap-up of [run]. *)
Lemma wrapup_table (s s1 : State) (w w1 : World) :
  wrapup s w = Ok s1 w1 ->
  exists row,
    round_of row = Some total_rounds /\
    metrics_csv w1 =
      Some match metrics_csv w with
           | Some rows => py_slice_to total_rounds rows ++ [row]
           | None => [row]
           end.
Proof.
  intros Hwrap. apply wrapup_inv in Hwrap as (_ & _ & _ & _ & Hcsv & _).
  exists (final_row_at (calls w) s).
  split; [apply round_of_flatten_metrics|].
  rewrite Hcsv. destruct (metrics_csv w); reflexivity.
Qed.

(** X7. With an evaluation after every round ([rounds_per_eval = 1]), a run
    that returns leaves a table with exactly one row for each of the rounds
    0 to [total_rounds], in order, whether it started without a table at
    round 0 or resumed on a table of that kind that reaches at least to the
    round it resumed at: rows at and after that round are written anew. *)
Theorem table_has_one_row_per_round (fuel : nat) (w w' : World) (s : State) :
  rounds_per_eval = 1 ->
  0 <= total_rounds ->
  0 <= resume_round (checkpoints w) ->
  match metrics_csv w with
  | None => resume_round (checkpoints w) = 0
  | Some rows =>
      dense_table rows /\ resume_round (checkpoints w) <= Z.of_nat (length rows)
  end ->
  run fuel w = Returned s w' ->
  exists rows',
    metrics_csv w' = Some rows' /\
    map round_of rows' = rounds_upto (Z.to_nat total_rounds + 1).
Proof.
  intros Hevery Htotal Hstart Htable Hret.
  destruct (run_unfold fuel w) as (l0 & w0 & Hstartup & Hround & _ & _ & _ & _ & Hrun).
  assert (Hcsv0 : metrics_csv w0 = metrics_csv w).
  { rewrite startup_ok in Hstartup. now injection Hstartup as _ <-. }
  rewrite Hrun in Hret.
  destruct (while_loop fuel l0 w0) as [l' w2|e w2|l' w2] eqn:Hloop; try discriminate.
  pose (P := fun (l1 : locals) (w1 : World) =>
    0 <= round_num l1 /\
    match metrics_csv w1 with
    | None => round_num l1 = 0
    | Some rows => dense_table rows /\ round_num l1 <= Z.of_nat (length rows)
    end).
  assert (H : match while_loop fuel l0 w0 with
              | Returned l1 w1 => P l1 w1 /\ total_rounds <= round_num l1
              | Running l1 w1 => P l1 w1 /\ round_num l1 < total_rounds
              | Raised _ w1 => True
              end).
  { apply (while_loop_invariant P (fun _ => True)).
    - intros l1 w1 l2 w2' _ (Hpos & Ht) Hbody.
      destruct (loop_body_ok_cases l1 l2 w1 w2' Hbody)
        as [(e & Hnext & Hc)|(s' & m & Hnext)].
      + rewrite (loop_body_retry l1 w1 e Hnext Hc) in Hbody.
        injection Hbody as <- <-. split; [exact Hpos | exact Ht].
      + destruct (loop_body_success l1 l2 w1 w2' s' m Hnext Hbody)
          as (_ & _ & _ & -> & _).
        destruct (loop_body_success_world l1 _ w1 w2' s' m Hnext Hbody)
          as (a & b & c & em & _ & Hcsv & _). cbv zeta in Hcsv.
        unfold eval_due in Hcsv. rewrite Hevery, Z.mod_1_r in Hcsv. simpl in Hcsv.
        split; [simpl; lia|]. rewrite Hcsv. simpl.
        match goal with
        | |- context [flatten_metrics ?t ?e (VInt (round_num l1))] =>
            destruct (dense_table_after_write (metrics_csv w1)
                        (flatten_metrics t e (VInt (round_num l1))) (round_num l1)
                        Hpos (round_of_flatten_metrics t e (round_num l1)) Ht)
              as [Hdense Hlen]
        end.
        split; [exact Hdense | lia].
    - trivial.
    - split; [now rewrite Hround|]. now rewrite Hcsv0, Hround. }
  rewrite Hloop in H. destruct H as [(Hpos & Ht) Hdone].
  destruct (wrapup (state l') w2) as [s1 w3|e3 w3] eqn:Hwrap; [|discriminate].
  injection Hret as <- <-.
  destruct (wrapup_table _ _ _ _ Hwrap) as (row & Hrow & Hcsv).
  eexists. split; [exact Hcsv|].
  assert (Ht' : match metrics_csv w2 with
                | None => total_rounds = 0
                | Some rows => dense_table rows /\ total_rounds <= Z.of_nat (length rows)
                end).
  { destruct (metrics_csv w2) as [rows|]; [split; [tauto | lia] | lia]. }
  destruct (dense_table_after_write (metrics_csv w2) row total_rounds Htotal Hrow Ht')
    as [Hdense Hlen].
  unfold dense_table in Hdense. rewrite Hdense. f_equal. lia.
Qed.

(** X8. However a run ends, the scalar events the summary writer had are still
    there, in their places, and every event that came after them has as its
    step a round of this run's loop or [total_rounds]. *)
Theorem summary_only_grows (fuel : nat) (w : World) :
  exists logged,
    summary (final_world (run fuel w)) = summary w ++ logged /\
    Forall (summary_step (resume_round (checkpoints w))) logged.
Proof.
  destruct (run_unfold fuel w) as (l0 & w0 & Hstartup & Hround & _ & _ & _ & _ & Hrun).
  assert (Hs0 : summary w0 = summary w).
  { rewrite startup_ok in Hstartup. now injection Hstartup as _ <-. }
  pose (R := fun (w1 : World) =>
    exists logged, summary w1 = summary w ++ logged /\
      Forall (summary_step (resume_round (checkpoints w))) logged).
  pose (P := fun (l1 : locals) (w1 : World) =>
    resume_round (checkpoints w) <= round_num l1 /\ R w1).
  assert (H : match while_loop fuel l0 w0 with
              | Returned l1 w1 => P l1 w1 /\ total_rounds <= round_num l1
              | Running l1 w1 => P l1 w1 /\ round_num l1 < total_rounds
              | Raised _ w1 => R w1
              end).
  { apply (while_loop_invariant P R).
    - intros l1 w1 l2 w2 Hlt (Hle & logged & Hs & Hall) Hbody.
      destruct (loop_body_ok_cases l1 l2 w1 w2 Hbody)
        as [(e & Hnext & Hc)|(s' & m & Hnext)].
      + rewrite (loop_body_retry l1 w1 e Hnext Hc) in Hbody.
        injection Hbody as <- <-. split; [exact Hle|]. exists logged.
        split; assumption.
      + destruct (loop_body_success l1 l2 w1 w2 s' m Hnext Hbody)
          as (_ & _ & _ & -> & _).
        destruct (loop_body_success_world l1 _ w1 w2 s' m Hnext Hbody)
          as (a & b & c & em & _ & _ & Hs2 & _). cbv zeta in Hs2.
        split; [simpl; lia|]. eexists. rewrite Hs2, Hs, <- app_assoc.
        split; [reflexivity|]. apply Forall_app. split; [exact Hall|].
        destruct (eval_due (round_num l1)); [|constructor].
        apply Forall_map, Forall_forall. intros nv _. left. simpl. lia.
    - intros l1 w1 e w2 Hlt (Hle & logged & Hs & Hall) Hbody.
      destruct (loop_body_raise_world l1 w1 w2 e Hbody)
        as (_ & (logged2 & Hs2 & Hall2) & _).
      exists (logged ++ logged2). rewrite Hs2, Hs, <- app_assoc.
      split; [reflexivity|]. apply Forall_app. split; [exact Hall|].
      eapply Forall_impl; [exact Hall2|]. intros ev Hev. left. rewrite Hev. lia.
    - split; [lia|]. exists []. rewrite Hs0, app_nil_r. split; [reflexivity|constructor]. }
  rewrite Hrun. destruct (while_loop fuel l0 w0) as [l' w2|e w2|l' w2].
  - destruct H as [(_ & logged & Hs & Hall) _].
    destruct (wrapup (state l') w2) as [s1 w3|e3 w3] eqn:Hwrap; simpl.
    + apply wrapup_inv in Hwrap as (_ & _ & _ & _ & _ & Hs3).
      eexists. rewrite Hs3, Hs, <- app_assoc. split; [reflexivity|].
      apply Forall_app. split; [exact Hall|].
      apply Forall_map, Forall_forall. intros nv _. now right.
    + apply wrapup_raise in Hwrap as (_ & _ & _ & _ & logged3 & Hs3 & Hall3).
      exists (logged ++ logged3). rewrite Hs3, Hs, <- app_assoc.
      split; [reflexivity|]. apply Forall_app. split; [exact Hall|].
      eapply Forall_impl; [exact Hall3|]. intros ev Hev. now right.
  - exact H.
  - exact (proj2 (proj1 H)).
Qed.

(** ** Zero intervals *)

(** X14. In a pass whose round-compute call returned metrics with the key
    that is popped (at a round other than -1): with
    [rounds_per_checkpoint = 0] the [%] of the checkpoint test raises
    [ZeroDivisionError] before anything is saved; with [rounds_per_eval = 0]
    (and a checkpoint interval that is not zero) the [%] of the evaluation
    test raises it after the checkpoint of the round, if one was due, has
    been saved. Either way no metrics are written, and the loop ends with
    that exception. *)
Theorem zero_interval_raises (fuel : nat) (l : locals) (w : World) (s' : State) (m : dict) :
  round_num l < total_rounds ->
  round_num l + 1 <> 0 ->
  attempt_at l w = inr (s', m) ->
  Dict.mem "keras_training_time_client_sum_sec" m = true ->
  rounds_per_checkpoint = 0 \/ rounds_per_eval = 0 ->
  exists w',
    while_loop (S fuel) l w = Raised ZeroDivisionError w' /\
    metrics_csv w' = metrics_csv w /\
    summary w' = summary w /\
    checkpoints w' =
      (if (negb (rounds_per_checkpoint =? 0)) && checkpoint_due (round_num l)
       then (round_num l, s') :: checkpoints w
       else checkpoints w).
Proof.
  unfold attempt_at, sampled_at, checkpoint_due.
  intros Hlt Hround Hnext Hkey Hzero.
  apply Z.ltb_lt in Hlt. apply Z.eqb_neq in Hround.
  simpl. rewrite Hlt.
  unfold loop_body, bind, time, call_client_datasets_fn, call_next. simpl.
  rewrite Hnext. simpl. unfold pop. rewrite mem_update, Hkey. simpl.
  rewrite Hround. simpl. unfold py_mod.
  destruct (rounds_per_checkpoint =? 0) eqn:Hcp; simpl.
  - eexists. split; [reflexivity|]. repeat split.
  - assert (Hev : (rounds_per_eval =? 0) = true).
    { apply Z.eqb_neq in Hcp. apply Z.eqb_eq.
      destruct Hzero as [Hzero|Hzero]; [contradiction | exact Hzero]. }
    destruct ((round_num l mod rounds_per_checkpoint =? 0)
              || (round_num l =? total_rounds - 1)); simpl; rewrite Hev; simpl;
      eexists; (split; [reflexivity|]); repeat split.
Qed.

End TrainingLoop.

Arguments mkWorld {State}.
Arguments mkLocals {State}.
Arguments calls {State}.
Arguments summary {State}.
Arguments metrics_csv {State}.
Arguments hparams_csv {State}.
Arguments checkpoints {State}.
Arguments executor_builds {State}.
Arguments history {State}.
Arguments state {State}.
Arguments round_num {State}.
Arguments unique_clients {State}.
Arguments Attempt {State}.
Arguments Trained {State}.
Arguments Evaluated {State}.
Arguments Wrote {State}.
Arguments Ok {State A}.
Arguments Raise {State A}.
Arguments Returned {State A}.
Arguments Raised {State A}.
Arguments Running {State A}.
Arguments final_world {State A}.
Arguments attempt_rounds {State}.
Arguments clients_of {State}.
Arguments counts_agree {State}.
Arguments recorded_counts {State}.
Arguments successful_rounds {State}.
Arguments failed_attempts {State}.
Arguments wrote_rounds {State}.
Arguments in_loop_event {State}.
Arguments latest_checkpoint {State}.
Arguments resume_round {State}.
Arguments _write_metrics {State}.
Arguments startup {State}.
Arguments sampled_at {State Dataset}.
Arguments attempt_at {State Dataset}.
Arguments pass_events {State Dataset}.
Arguments loop_body {State Model Dataset}.
Arguments while_loop {State Model Dataset}.
Arguments run {State Model Dataset}.
Arguments test_metrics_at {State}.
Arguments final_row_at {State}.


(** ** The theorems at work on the small process *)

(** A table with the rows of rounds 0, 1, 2, rewritten at round 1. *)
Lemma write_metrics_truncates_dense_table_witness :
  exists w' kept new_row,
    _write_metrics Toy.summary_scalar (VDict []) (VDict []) (VInt 1)
      (mkWorld (State := Z) 0 [] (Some (Toy.table [0; 1; 2])) None [] 0 []) =
    Ok tt w' /\
    metrics_csv w' = Some (kept ++ [new_row]) /\
    kept = List.filter (fun row => match round_of row with
                                   | Some q => q <? 1
                                   | None => false
                                   end) (Toy.table [0; 1; 2]) /\
    round_of new_row = Some 1 /\
    NoDup (map round_of (kept ++ [new_row])).
Proof.
  apply (write_metrics_truncates_dense_table
           Z Toy.summary_scalar [] [] 1 (Toy.table [0; 1; 2])).
  - lia.
  - reflexivity.
  - reflexivity.
  - vm_compute. repeat constructor.
Defined.

(** C1. The code at the failing input: on a table with rows for rounds
    0, 2 and 4 (what the loop writes with [rounds_per_eval = 2]), a write
    for round 2 goes through, keeps the first two rows, among them the old
    row of round 2, and the table ends up with two rows for round 2: the
    row with a round number equal to the one written has not been removed,
    and there is not one row per round number. *)
Lemma write_metrics_keeps_row_of_same_round :
  exists w' rows,
    _write_metrics Toy.summary_scalar (VDict []) (VDict []) (VInt 2)
      (mkWorld (State := Z) 0 [] (Some (Toy.table [0; 2; 4])) None [] 0 []) =
    Ok tt w' /\
    metrics_csv w' = Some rows /\
    map round_of rows = [Some 0; Some 2; Some 2] /\
    ~ NoDup (map round_of rows).
Proof.
  eexists. eexists. split; [vm_compute; reflexivity|]. split; [reflexivity|].
  split; [reflexivity|].
  intros Hnodup. change (NoDup [Some 0; Some 2; Some 2]) in Hnodup.
  apply NoDup_cons in Hnodup as [_ Hnodup].
  apply NoDup_cons in Hnodup as [Hnotin _].
  apply Hnotin. left.
Qed.

(** The loop itself meets such a table: with [rounds_per_eval = 2], a run of
    six rounds interrupted after the pass of round 4 leaves rows for rounds
    0, 2, 4 and a checkpoint for round 0; the run that resumes at round 1
    writes round 2 again and ends with two rows for it. *)
Lemma resumed_run_writes_round_twice :
  let interrupted :=
    final_world
      (run 6 2 50 [] "metrics.csv" Toy.initialize Toy.model Toy.next
           Toy.client_datasets_fn Toy.evaluate_fn Toy.time_time
           Toy.l2_difference Toy.summary_scalar 5
           (mkWorld 0 [] None None [] 0 [])) in
  option_map (map round_of) (metrics_csv interrupted) =
    Some [Some 0; Some 2; Some 4] /\
  map fst (checkpoints interrupted) = [0] /\
  option_map (map round_of)
    (metrics_csv
       (final_world
          (run 6 2 50 [] "metrics.csv" Toy.initialize Toy.model Toy.next
               Toy.client_datasets_fn Toy.evaluate_fn Toy.time_time
               Toy.l2_difference Toy.summary_scalar 10 interrupted))) =
    Some [Some 0; Some 2; Some 2; Some 4; Some 6].
Proof. repeat split; vm_compute; reflexivity. Qed.

(** An integer where the train metrics should be. *)
Lemma write_metrics_rejects_malformed_witness :
  exists msg,
    _write_metrics Toy.summary_scalar (VInt 3) (VDict []) (VInt 0)
      (mkWorld (State := Z) 0 [] (Some (Toy.table [0])) None [] 0 []) =
    Raise (TypeError msg)
      (mkWorld (State := Z) 0 [] (Some (Toy.table [0])) None [] 0 []).
Proof.
  apply (write_metrics_rejects_malformed Z Toy.summary_scalar (VInt 3) (VDict []) (VInt 0)).
  left. reflexivity.
Defined.

(** Three passes with the executor down. *)
Lemma transient_faults_retry_without_cap_witness :
  exists w',
    while_loop 5 1 50 Toy.model Toy.next_down Toy.client_datasets_fn
               Toy.evaluate_fn Toy.time_time Toy.l2_difference Toy.summary_scalar
               3 (mkLocals 0 0 ∅) (mkWorld 0 [] None None [] 0 []) =
    Running (mkLocals 0 0 ∅) w' /\
    executor_builds w' = 3%nat /\
    attempt_rounds (history w') = [0; 0; 0] /\
    checkpoints w' = [] /\
    metrics_csv w' = None.
Proof.
  apply (transient_faults_retry_without_cap
           Z Z unit 5 1 50 Toy.model Toy.next_down Toy.client_datasets_fn
           Toy.evaluate_fn Toy.time_time Toy.l2_difference Toy.summary_scalar
           3 (mkLocals 0 0 ∅) (mkWorld 0 [] None None [] 0 [])).
  - simpl. lia.
  - intros j Hj. exists InternalError, "executor down".
    split; [reflexivity|]. right. right. reflexivity.
Defined.



(** Three rounds with the client sets [{a,b}], [{b,c}], [{a,d}]: the counts
    recorded are 2, 3 and 4. *)
Lemma num_unique_clients_counts_union_witness :
  recorded_counts
    (history (final_world
       (run 3 1 50 [] "metrics.csv" Toy.initialize Toy.model Toy.next
            Toy.client_datasets_fn Toy.evaluate_fn Toy.time_time
            Toy.l2_difference Toy.summary_scalar 3 (mkWorld 0 [] None None [] 0 [])))) =
  [(2, Some (VInt 4)); (1, Some (VInt 3)); (0, Some (VInt 2))] /\
  exists added,
    history (final_world
       (run 3 1 50 [] "metrics.csv" Toy.initialize Toy.model Toy.next
            Toy.client_datasets_fn Toy.evaluate_fn Toy.time_time
            Toy.l2_difference Toy.summary_scalar 3 (mkWorld 0 [] None None [] 0 []))) =
    added ++ [] /\
    counts_agree added.
Proof.
  split; [vm_compute; reflexivity|].
  apply (num_unique_clients_counts_union
           Z Z unit 3 1 50 [] "metrics.csv" Toy.initialize Toy.model Toy.next
           Toy.client_datasets_fn Toy.evaluate_fn Toy.time_time
           Toy.l2_difference Toy.summary_scalar 3 (mkWorld 0 [] None None [] 0 [])).
  intros i s data s' m Hnext. injection Hnext as _ <-. reflexivity.
Defined.

(** C7 fails as stated, in two ways. When the process reports a
    [num_unique_clients] of 99 among its metrics, the [update] of the train
    metrics puts 99 over the count the loop had stored, although round 0 saw
    the two clients a, b. And a run of five rounds that is interrupted after
    the rounds 0 and 1, with a checkpoint for round 0 only, is resumed at
    round 1 with an empty set: the resumed round 1 records 2 for its clients
    b, c, although the rounds that succeeded so far saw a, b and c. *)
Lemma num_unique_clients_differs_from_union :
  (let h :=
     history (final_world
       (run 1 1 50 [] "metrics.csv" Toy.initialize Toy.model Toy.next_with_count
            Toy.client_datasets_fn Toy.evaluate_fn Toy.time_time
            Toy.l2_difference Toy.summary_scalar 1
            (mkWorld 0 [] None None [] 0 []))) in
   recorded_counts h = [(0, Some (VInt 99))] /\
   attempt_rounds h = [0] /\
   size (clients_of h) = 2%nat /\
   ~ counts_agree h) /\
  (let interrupted :=
     final_world
       (run 5 1 50 [] "metrics.csv" Toy.initialize Toy.model Toy.next
            Toy.client_datasets_fn Toy.evaluate_fn Toy.time_time
            Toy.l2_difference Toy.summary_scalar 2
            (mkWorld 0 [] None None [] 0 [])) in
   let h :=
     history (final_world
       (run 5 1 50 [] "metrics.csv" Toy.initialize Toy.model Toy.next
            Toy.client_datasets_fn Toy.evaluate_fn Toy.time_time
            Toy.l2_difference Toy.summary_scalar 1 interrupted)) in
   map fst (checkpoints interrupted) = [0] /\
   successful_rounds h = [1; 1; 0] /\
   recorded_counts h =
     [(1, Some (VInt 2)); (1, Some (VInt 3)); (0, Some (VInt 2))] /\
   size (clients_of h) = 3%nat /\
   ~ counts_agree h).
Proof.
  split.
  - split; [vm_compute; reflexivity|]. split; [vm_compute; reflexivity|].
    split; [vm_compute; reflexivity|].
    vm_compute. intros [Hcount _]. discriminate Hcount.
  - split; [vm_compute; reflexivity|]. split; [vm_compute; reflexivity|].
    split; [vm_compute; reflexivity|]. split; [vm_compute; reflexivity|].
    vm_compute. intros [Hcount _]. discriminate Hcount.
Qed.

(** Checkpoints for rounds 5, 7 and 3 in the store: the loop starts at
    round 8 from the state saved for round 7. *)
Lemma startup_resumes_after_latest_checkpoint_witness :
  exists w0,
    startup [] "metrics.csv" Toy.initialize Toy.time_time
            (mkWorld 0 [] None None [(5, 50); (7, 70); (3, 30)] 0 []) =
    Ok (mkLocals 70 8 ∅) w0.
Proof.
  destruct (startup_resumes_after_latest_checkpoint
              Z Z unit 10 1 50 [] "metrics.csv" Toy.initialize Toy.model Toy.next
              Toy.client_datasets_fn Toy.evaluate_fn Toy.time_time
              Toy.l2_difference Toy.summary_scalar 0
              (mkWorld 0 [] None None [(5, 50); (7, 70); (3, 30)] 0 []))
    as (_ & Hstore & _).
  destruct Hstore as (r & s & w0 & Hlatest & _ & _ & Hstart); [discriminate|].
  vm_compute in Hlatest. injection Hlatest as <- <-.
  exists w0. exact Hstart.
Defined.

(** Three rounds, evaluated every second round: rows for rounds 0 and 2, then
    the row of the test evaluation for round 3, with the columns of the
    evaluation and its time and no column of train metrics. *)
Lemma final_record_keyed_by_total_rounds_witness :
  exists s w',
    run 3 2 50 [] "metrics.csv" Toy.initialize Toy.model Toy.next
        Toy.client_datasets_fn Toy.evaluate_fn Toy.time_time Toy.l2_difference
        Toy.summary_scalar 3 (mkWorld 0 [] None None [] 0 []) = Returned s w' /\
    option_map (map round_of) (metrics_csv w') = Some [Some 0; Some 2; Some 3] /\
    option_map (fun rows => Dict.keys (List.last rows [])) (metrics_csv w') =
      Some ["eval/accuracy"; "eval/evaluate_secs"; "round"] /\
    exists test_metrics in_loop rows final_row,
      history w' =
        Wrote (VDict []) (VDict test_metrics) 3 ::
        Evaluated s true :: in_loop ++ [] /\
      (exists i elapsed,
         test_metrics =
           Dict.set "evaluate_secs" (VFloat elapsed) (Toy.evaluate_fn i s true)) /\
      Forall (in_loop_event 3) in_loop /\
      final_row = flatten_metrics (VDict []) (VDict test_metrics) (VInt 3) /\
      metrics_csv w' = Some (rows ++ [final_row]) /\
      round_of final_row = Some 3 /\
      (forall name, In name (Dict.keys final_row) ->
         starts_with "train/" name = false /\
         (name = "round" \/ starts_with "eval/" name = true)) /\
      Dict.mem "eval/evaluate_secs" final_row = true /\
      (forall k v, In (k, v) test_metrics -> is_leaf v = true ->
         Dict.mem ("eval/" ++ k)%string final_row = true) /\
      (NoDup (Dict.keys test_metrics) ->
       Forall (fun kv => is_leaf (snd kv) = true) test_metrics ->
       forall k, Dict.get ("eval/" ++ k)%string final_row = Dict.get k test_metrics).
Proof.
  eexists. eexists.
  assert (Hrun :
    run 3 2 50 [] "metrics.csv" Toy.initialize Toy.model Toy.next
        Toy.client_datasets_fn Toy.evaluate_fn Toy.time_time Toy.l2_difference
        Toy.summary_scalar 3 (mkWorld 0 [] None None [] 0 []) = Returned _ _)
    by (vm_compute; reflexivity).
  split; [exact Hrun|]. split; [vm_compute; reflexivity|].
  split; [vm_compute; reflexivity|].
  exact (final_record_keyed_by_total_rounds
           Z Z unit 3 2 50 [] "metrics.csv" Toy.initialize Toy.model Toy.next
           Toy.client_datasets_fn Toy.evaluate_fn Toy.time_time Toy.l2_difference
           Toy.summary_scalar 3 _ _ _ Hrun).
Defined.

(** 120 rounds with a checkpoint every 50: checkpoints after the rounds 0,
    50, 100 and 119. *)
Lemma checkpoint_cadence_witness :
  exists s w',
    run 120 50 50 [] "metrics.csv" Toy.initialize Toy.model Toy.next
        Toy.client_datasets_fn Toy.evaluate_fn Toy.time_time Toy.l2_difference Toy.summary_scalar
        120 (mkWorld 0 [] None None [] 0 []) = Returned s w' /\
    map fst (checkpoints w') = [119; 100; 50; 0].
Proof.
  eexists. eexists.
  assert (Hrun :
    run 120 50 50 [] "metrics.csv" Toy.initialize Toy.model Toy.next
        Toy.client_datasets_fn Toy.evaluate_fn Toy.time_time Toy.l2_difference Toy.summary_scalar
        120 (mkWorld 0 [] None None [] 0 []) = Returned _ _)
    by (vm_compute; reflexivity).
  split; [exact Hrun|].
  exact (proj2 (checkpoint_cadence
                  Z Z unit 120 50 50 [] "metrics.csv" Toy.initialize Toy.model
                  Toy.next Toy.client_datasets_fn Toy.evaluate_fn Toy.time_time
                  Toy.l2_difference Toy.summary_scalar 120 _ _ _ Hrun)
               eq_refl eq_refl eq_refl).
Defined.

(** With a zero interval the first pass raises at the [%]. *)
Lemma zero_checkpoint_interval_raises :
  exists w',
    run 3 1 0 [] "metrics.csv" Toy.initialize Toy.model Toy.next
        Toy.client_datasets_fn Toy.evaluate_fn Toy.time_time Toy.l2_difference Toy.summary_scalar
        3 (mkWorld 0 [] None None [] 0 []) = Raised ZeroDivisionError w' /\
    checkpoints w' = [].
Proof. eexists. split; [vm_compute; reflexivity | reflexivity]. Qed.



(** ** The further theorems at work on the small process *)

(** A fault the handler does not catch, in the first pass. *)
Lemma other_faults_end_the_run_witness :
  exists w',
    while_loop 5 1 50 Toy.model Toy.next_unavailable Toy.client_datasets_fn
               Toy.evaluate_fn Toy.time_time Toy.l2_difference Toy.summary_scalar
               3 (mkLocals 0 0 ∅) (mkWorld 0 [] None None [] 0 []) =
    Raised (OpError (OtherOpError "UnavailableError") "backend unavailable") w' /\
    executor_builds w' = 0%nat /\
    checkpoints w' = [] /\
    metrics_csv w' = None /\
    summary w' = [] /\
    history w' = [].
Proof.
  apply (other_faults_end_the_run
           Z Z unit 5 1 50 Toy.model Toy.next_unavailable Toy.client_datasets_fn
           Toy.evaluate_fn Toy.time_time Toy.l2_difference Toy.summary_scalar
           2 (mkLocals 0 0 ∅) (mkWorld 0 [] None None [] 0 [])).
  - simpl. lia.
  - reflexivity.
  - reflexivity.
Defined.

(** Three rounds, the first of them attempted twice. *)
Lemma every_round_trained_once_witness :
  exists s w' added,
    run 3 1 50 [] "metrics.csv" Toy.initialize Toy.model Toy.next_flaky
        Toy.client_datasets_fn_flaky Toy.evaluate_fn Toy.time_time
        Toy.l2_difference Toy.summary_scalar 4 (mkWorld 0 [] None None [] 0 []) = Returned s w' /\
    attempt_rounds (history w') = [2; 1; 0; 0] /\
    history w' = added ++ [] /\
    successful_rounds added = [2; 1; 0].
Proof.
  eexists. eexists.
  assert (Hrun :
    run 3 1 50 [] "metrics.csv" Toy.initialize Toy.model Toy.next_flaky
        Toy.client_datasets_fn_flaky Toy.evaluate_fn Toy.time_time
        Toy.l2_difference Toy.summary_scalar 4 (mkWorld 0 [] None None [] 0 []) = Returned _ _)
    by (vm_compute; reflexivity).
  destruct (every_round_trained_once
              Z Z unit 3 1 50 [] "metrics.csv" Toy.initialize Toy.model
              Toy.next_flaky Toy.client_datasets_fn_flaky Toy.evaluate_fn
              Toy.time_time Toy.l2_difference Toy.summary_scalar 4 _ _ _ Hrun)
    as (added & Hh & Hok).
  exists added. split; [exact Hrun|]. split; [reflexivity|].
  split; [exact Hh | exact Hok].
Defined.

(** Five rounds evaluated every second round, the first of them attempted
    twice: records for the rounds 0, 2, 4 and then 5. *)
Lemma metrics_written_when_due_witness :
  exists s w' added,
    run 5 2 50 [] "metrics.csv" Toy.initialize Toy.model Toy.next_flaky
        Toy.client_datasets_fn_flaky Toy.evaluate_fn Toy.time_time
        Toy.l2_difference Toy.summary_scalar 6 (mkWorld 0 [] None None [] 0 []) = Returned s w' /\
    history w' = added ++ [] /\
    wrote_rounds added = [5; 4; 2; 0].
Proof.
  eexists. eexists.
  assert (Hrun :
    run 5 2 50 [] "metrics.csv" Toy.initialize Toy.model Toy.next_flaky
        Toy.client_datasets_fn_flaky Toy.evaluate_fn Toy.time_time
        Toy.l2_difference Toy.summary_scalar 6 (mkWorld 0 [] None None [] 0 []) = Returned _ _)
    by (vm_compute; reflexivity).
  destruct (metrics_written_when_due
              Z Z unit 5 2 50 [] "metrics.csv" Toy.initialize Toy.model
              Toy.next_flaky Toy.client_datasets_fn_flaky Toy.evaluate_fn
              Toy.time_time Toy.l2_difference Toy.summary_scalar 6 _ _ _ Hrun)
    as (added & Hh & Hwrote).
  exists added. split; [exact Hrun|]. split; [exact Hh | exact Hwrote].
Defined.


(** A run of five rounds interrupted after the pass of round 2 leaves rows
    for the rounds 0, 1, 2 and a checkpoint for round 0; the run that resumes
    at round 1 ends with one row for each of the rounds 0 to 5. *)
Lemma table_has_one_row_per_round_witness :
  exists s w' rows',
    run 5 1 50 [] "metrics.csv" Toy.initialize Toy.model Toy.next
        Toy.client_datasets_fn Toy.evaluate_fn Toy.time_time Toy.l2_difference Toy.summary_scalar
        10
        (final_world
           (run 5 1 50 [] "metrics.csv" Toy.initialize Toy.model Toy.next
                Toy.client_datasets_fn Toy.evaluate_fn Toy.time_time
                Toy.l2_difference Toy.summary_scalar 3 (mkWorld 0 [] None None [] 0 []))) =
    Returned s w' /\
    metrics_csv w' = Some rows' /\
    map round_of rows' = [Some 0; Some 1; Some 2; Some 3; Some 4; Some 5].
Proof.
  eexists. eexists.
  assert (Hrun :
    run 5 1 50 [] "metrics.csv" Toy.initialize Toy.model Toy.next
        Toy.client_datasets_fn Toy.evaluate_fn Toy.time_time Toy.l2_difference Toy.summary_scalar
        10
        (final_world
           (run 5 1 50 [] "metrics.csv" Toy.initialize Toy.model Toy.next
                Toy.client_datasets_fn Toy.evaluate_fn Toy.time_time
                Toy.l2_difference Toy.summary_scalar 3 (mkWorld 0 [] None None [] 0 []))) =
    Returned _ _) by (vm_compute; reflexivity).
  match type of Hrun with
  | _ = Returned _ ?x =>
      assert (Htable :
        exists rows', metrics_csv x = Some rows' /\
                      map round_of rows' = rounds_upto (Z.to_nat 5 + 1))
  end.
  { eapply (table_has_one_row_per_round
             Z Z unit 5 1 50 [] "metrics.csv" Toy.initialize Toy.model Toy.next
             Toy.client_datasets_fn Toy.evaluate_fn Toy.time_time
             Toy.l2_difference Toy.summary_scalar 10 _ _ _ eq_refl);
      [lia | | | exact Hrun].
    - vm_compute. discriminate.
    - vm_compute. split; [reflexivity | discriminate]. }
  destruct Htable as (rows' & Hcsv & Hrounds).
  exists rows'. split; [exact Hrun|]. split; [exact Hcsv | exact Hrounds].
Defined.

(** Flat train and eval metrics. *)
Lemma flat_metrics_lookup_witness :
  Dict.get "train/loss"
           (flatten_metrics (VDict [("loss", VInt 7); ("acc", VInt 1)])
                            (VDict [("accuracy", VInt 2)]) (VInt 3)) =
    Some (VInt 7) /\
  Dict.get "eval/loss"
           (flatten_metrics (VDict [("loss", VInt 7); ("acc", VInt 1)])
                            (VDict [("accuracy", VInt 2)]) (VInt 3)) =
    None.
Proof.
  apply (flat_metrics_lookup [("loss", VInt 7); ("acc", VInt 1)]
                             [("accuracy", VInt 2)] 3 "loss").
  - apply (bool_decide_unpack _). vm_compute. exact I.
  - repeat constructor.
  - apply (bool_decide_unpack _). vm_compute. exact I.
  - repeat constructor.
Defined.


(** The first pass of a fresh run with a process that reports a
    [save_checkpoint_secs] of 99: the train metrics hold the loss of the
    process and, under [save_checkpoint_secs], the second between the
    eighth and the ninth reading of the clock. *)
Lemma process_metrics_reach_train_metrics_witness :
  exists l' w' train_metrics eval_metrics,
    loop_body 5 1 50 Toy.model Toy.next_with_save_secs Toy.client_datasets_fn
              Toy.evaluate_fn Toy.time_time Toy.l2_difference Toy.summary_scalar
              (mkLocals 0 0 ∅) (mkWorld 0 [] None None [] 0 []) = Ok l' w' /\
    history w' =
      pass_events 1 Toy.client_datasets_fn (mkLocals 0 0 ∅)
                  (mkWorld 0 [] None None [] 0 []) train_metrics eval_metrics 1 ++
      [] /\
    Dict.get "loss" train_metrics = Some (VFloat (QArith_base.Qmake 1 2)) /\
    Dict.mem "num_unique_clients" train_metrics = true /\
    Dict.get "save_checkpoint_secs" train_metrics =
      Some (secs (Toy.time_time 8) (Toy.time_time 7)) /\
    secs (Toy.time_time 8) (Toy.time_time 7) <> VFloat (QArith_base.inject_Z 99).
Proof.
  eexists. eexists.
  assert (Hbody :
    loop_body 5 1 50 Toy.model Toy.next_with_save_secs Toy.client_datasets_fn
              Toy.evaluate_fn Toy.time_time Toy.l2_difference Toy.summary_scalar
              (mkLocals 0 0 ∅) (mkWorld 0 [] None None [] 0 []) = Ok _ _)
    by (vm_compute; reflexivity).
  destruct (process_metrics_reach_train_metrics
              Z Z unit 5 1 50 Toy.model Toy.next_with_save_secs
              Toy.client_datasets_fn Toy.evaluate_fn Toy.time_time
              Toy.l2_difference Toy.summary_scalar
              (mkLocals 0 0 ∅) _ (mkWorld 0 [] None None [] 0 []) _
              1 (("save_checkpoint_secs", VFloat (QArith_base.inject_Z 99)) ::
                 Toy.round_metrics)
              eq_refl Hbody)
    as (tm & em & Hh & Hprocess & _ & _ & _ & Hcount & Hsave & _).
  - apply (bool_decide_unpack _). vm_compute. exact I.
  - exists tm, em. split; [exact Hbody|]. split; [exact Hh|].
    split; [|split; [|split]].
    + exact (Hprocess "loss" ltac:(discriminate) ltac:(discriminate) eq_refl).
    + exact Hcount.
    + exact (Hsave eq_refl).
    + vm_compute. discriminate.
Defined.


(** An evaluation interval of zero, with a checkpoint due at round 0. *)
Lemma zero_interval_raises_witness :
  exists w',
    while_loop 5 0 50 Toy.model Toy.next Toy.client_datasets_fn
               Toy.evaluate_fn Toy.time_time Toy.l2_difference Toy.summary_scalar
               3 (mkLocals 0 0 ∅) (mkWorld 0 [] None None [] 0 []) =
    Raised ZeroDivisionError w' /\
    metrics_csv w' = None /\
    summary w' = [] /\
    checkpoints w' = [(0, 1)].
Proof.
  apply (zero_interval_raises
           Z Z unit 5 0 50 Toy.model Toy.next Toy.client_datasets_fn
           Toy.evaluate_fn Toy.time_time Toy.l2_difference Toy.summary_scalar
           2 (mkLocals 0 0 ∅) (mkWorld 0 [] None None [] 0 []) 1 Toy.round_metrics).
  - simpl. lia.
  - discriminate.
  - reflexivity.
  - reflexivity.
  - right. reflexivity.
Defined.
